(** * RAG chatbot: the retrieval-and-ranking pipeline

    A shallow embedding of the retrieval core of the repository
    ([core/reranker.py], [core/hyde_retrieval.py],
    [core/vector_store_compatible.py], [core/enhanced_rag_chain.py] and the
    mode dispatch of [app.py]) together with the properties stated about it.

    Modelling conventions.
    - Python [float] values are idealised as exact rationals ([Q]); the float
      literals 0.1, 0.8, 0.95 ... stand for the decimal fractions they
      denote.  Equality of scores is [Qeq].
    - Python [str] values are [string]s over the ASCII range: [lower],
      [split] and the [\w+] tokeniser follow the ASCII behaviour of the
      Python functions.
    - Python [int] values are [Z]; an optional integer argument
      ([k: int = None]) is an [option Z].
    - An exception is a value of [exn]; code that may raise returns a
      [result].  Code that talks to the vector store, to the language model or
      to the clock threads a [World] through every call. *)

From Stdlib Require Import QArith Qminmax Qround Lqa ZArith Lia List Ascii String.
From Stdlib Require Import Sorted Permutation.
From stdpp Require Import gmap strings list pretty.

Set Warnings "-clear-no-such-hyp".

Open Scope Z_scope.

(** ** Python glue *)

Module Py.

(** Exceptions (subclasses of [Exception]); [str_exn] is [str(e)]. *)
Inductive exn : Type :=
| ZeroDivisionError
| RuntimeError (msg : string).

Definition str_exn (e : exn) : string :=
  match e with
  | ZeroDivisionError => "division by zero"
  | RuntimeError msg => msg
  end.

Inductive result (A : Type) : Type :=
| Ok (a : A)
| Raise (e : exn).
Arguments Ok {A} a.
Arguments Raise {A} e.

Definition rbind {A B} (r : result A) (f : A -> result B) : result B :=
  match r with
  | Ok a => f a
  | Raise e => Raise e
  end.

(** [min(a, b)] and [max(a, b)] on two arguments: the first argument wins
    unless the second is strictly better. *)
Definition py_min (a b : Q) : Q := if Qlt_le_dec b a then b else a.
Definition py_max (a b : Q) : Q := if Qlt_le_dec a b then b else a.

(** [a / b] on numbers; a zero divisor raises. *)
Definition truediv (a b : Q) : result Q :=
  if Qeq_bool b 0 then Raise ZeroDivisionError else Ok (a / b)%Q.

(** [len(x)] as a number. *)
Definition len {A} (l : list A) : Z := Z.of_nat (length l).
Definition float_of_int (z : Z) : Q := inject_Z z.

(** [k or d] on an optional integer: [None] and [0] are falsy. *)
Definition or_default (k : option Z) (d : Z) : Z :=
  match k with
  | None => d
  | Some z => if z =? 0 then d else z
  end.

(** [xs[:k]]: a negative bound counts from the end. *)
Definition slice_to {A} (k : Z) (xs : list A) : list A :=
  if k <? 0 then take (Z.to_nat (len xs + k)) xs else take (Z.to_nat k) xs.

(** [round(x, 3)], idealised: the nearest multiple of 1/1000, halves to
    even. *)
Definition round3 (x : Q) : Q :=
  let y := (x * 1000)%Q in
  let f := Qfloor y in
  let r := (y - inject_Z f)%Q in
  let n := if Qlt_le_dec r 0.5 then f
           else if Qlt_le_dec 0.5 r then f + 1
           else if Z.even f then f else f + 1 in
  (inject_Z n / 1000)%Q.

End Py.
Export Py.

(** ** Text *)

Module Text.

Definition code (c : ascii) : N := N_of_ascii c.

(** [str.isspace] on the ASCII range: TAB..CR, FS..US and the space. *)
Definition is_space (c : ascii) : bool :=
  let n := code c in
  ((9 <=? n) && (n <=? 13) || (28 <=? n) && (n <=? 32))%N.

(** [\w] on the ASCII range: letters, digits and the underscore. *)
Definition is_word (c : ascii) : bool :=
  let n := code c in
  ((48 <=? n) && (n <=? 57) || (65 <=? n) && (n <=? 90)
   || (97 <=? n) && (n <=? 122) || (n =? 95))%N.

Definition lower_char (c : ascii) : ascii :=
  let n := code c in
  if ((65 <=? n) && (n <=? 90))%N then ascii_of_N (n + 32) else c.

(** [s.lower()] *)
Fixpoint lower (s : string) : string :=
  match s with
  | EmptyString => EmptyString
  | String c s' => String (lower_char c) (lower s')
  end.

Definition flush (cur : string) : list string :=
  match cur with
  | EmptyString => []
  | _ => [cur]
  end.

(** The maximal runs of characters satisfying [keep], left to right;
    [cur] is the run being read. *)
Fixpoint runs (keep : ascii -> bool) (cur : string) (s : string) : list string :=
  match s with
  | EmptyString => flush cur
  | String c s' =>
      if keep c then runs keep (cur +:+ String c EmptyString) s'
      else flush cur ++ runs keep EmptyString s'
  end.

(** [s.split()] *)
Definition split (s : string) : list string :=
  runs (fun c => negb (is_space c)) EmptyString s.

(** [re.findall(r'\w+', s)] *)
Definition findall_w (s : string) : list string :=
  runs is_word EmptyString s.

(** [needle in hay] *)
Fixpoint contains (needle hay : string) : bool :=
  String.prefix needle hay ||
  match hay with
  | EmptyString => false
  | String _ hay' => contains needle hay'
  end.

(** [len(s)] *)
Definition slen (s : string) : Z := Z.of_nat (String.length s).

End Text.

(** ** Data model *)

(** A metadata value: the loaders store strings and integers. *)
Inductive pyval : Type :=
| VStr (s : string)
| VInt (z : Z).

(** [langchain.schema.Document] *)
Record Document : Type := mkDocument {
  page_content : string;
  metadata : gmap string pyval
}.

(** [config.settings.Settings], the fields the pipeline reads. *)
Record Settings : Type := mkSettings {
  TOP_K : Z;
  MODEL_NAME : string
}.

(** ** [core/reranker.py] *)

Module Reranker.
Import Text.

Definition word_set (s : string) : gset string :=
  list_to_set (findall_w (lower s)).

(** [SimpleReranker.calculate_lexical_similarity].  The division is guarded
    by the emptiness test, so it cannot raise. *)
Definition calculate_lexical_similarity (query document : string) : Q :=
  let query_words := word_set query in
  let doc_words := word_set document in
  if bool_decide (query_words = ∅) || bool_decide (doc_words = ∅) then 0%Q
  else
    let intersection := query_words ∩ doc_words in
    let union := query_words ∪ doc_words in
    (float_of_int (Z.of_nat (size intersection))
     / float_of_int (Z.of_nat (size union)))%Q.

(** The body of the scoring loop of [simple_rerank]. *)
Definition length_factor (doc : Document) : Q :=
  py_min (float_of_int (slen (page_content doc)) / 100)%Q 1%Q.

Definition final_score (query : string) (doc : Document) : Q :=
  let lexical_score := calculate_lexical_similarity query (page_content doc) in
  (lexical_score * 0.8 + length_factor doc * 0.2)%Q.

(** [list.sort(key=lambda x: x[1], reverse=True)]: a stable sort, largest
    key first; equal keys keep their original order. *)
Fixpoint insert_desc (x : Document * Q) (l : list (Document * Q))
  : list (Document * Q) :=
  match l with
  | [] => [x]
  | y :: l' =>
      if Qlt_le_dec (snd x) (snd y) then y :: insert_desc x l' else x :: l
  end.

Fixpoint sort_desc (l : list (Document * Q)) : list (Document * Q) :=
  match l with
  | [] => []
  | x :: l' => insert_desc x (sort_desc l')
  end.

(** [SimpleReranker.simple_rerank] *)
Definition simple_rerank (query : string) (documents : list Document)
    (top_k : option Z) : list (Document * Q) :=
  let top_k := or_default top_k (len documents) in
  let scored_docs := map (fun doc => (doc, final_score query doc)) documents in
  let scored_docs := sort_desc scored_docs in
  slice_to top_k scored_docs.

End Reranker.


(** ** Collaborators

    The vector database, the chat-completion endpoint, the clock and the
    string hash are outside the repository.  [World] is whatever state they
    keep; every call takes the world and returns the next one. *)

(** What the pipeline reads of a chat completion:
    [response.choices[0].message.content] and, when the response has a
    [usage] attribute, [response.usage.total_tokens]. *)
Record ChatResponse : Type := mkChatResponse {
  message_content : string;
  usage_total_tokens : option Z
}.

Class Runtime : Type := {
  World : Type;
  (** [time.time()] *)
  time_time : World -> Q * World;
  (** [Chroma.similarity_search(query, k=k)] *)
  chroma_similarity_search :
    string -> Z -> World -> result (list Document) * World;
  (** [client.chat.completions.create(model, messages=[user prompt],
      temperature, max_tokens)] followed by the read of the first choice *)
  chat_completions_create :
    string -> string -> Q -> Z -> World -> result ChatResponse * World;
  (** [hash] on strings *)
  hash : string -> Z;
  settings : Settings
}.

Module Eff.
Section WithRuntime.
Context {RT : Runtime}.

(** A computation that may raise and that changes the world. *)
Definition M (A : Type) : Type := World -> result A * World.

Definition ret {A} (a : A) : M A := fun w => (Ok a, w).

Definition bind {A B} (m : M A) (f : A -> M B) : M B :=
  fun w =>
    match m w with
    | (Ok a, w') => f a w'
    | (Raise e, w') => (Raise e, w')
    end.

(** A pure computation that may raise. *)
Definition lift {A} (r : result A) : M A := fun w => (r, w).

(** An effect that cannot raise. *)
Definition total {A} (f : World -> A * World) : M A :=
  fun w => let '(a, w') := f w in (Ok a, w').

(** [try: body / except Exception as e: handler(e)] *)
Definition try_except {A} (body : M A) (handler : exn -> World -> A * World)
  : World -> A * World :=
  fun w =>
    match body w with
    | (Ok a, w') => (a, w')
    | (Raise e, w') => handler e w'
    end.
End WithRuntime.
End Eff.
Import Eff.

Notation "x <- c ;; k" := (bind c (fun x => k))
  (at level 100, c at next level, right associativity).

(** ** [core/vector_store_compatible.py] *)

Module VectorStore.
Section WithRuntime.
Context {RT : Runtime}.

(** [VectorStoreManager.similarity_search] *)
Definition similarity_search (query : string) (k : option Z)
  : M (list Document) :=
  let k := or_default k (TOP_K settings) in
  chroma_similarity_search query k.
End WithRuntime.
End VectorStore.

(** ** [core/hyde_retrieval.py] *)

Module HyDE.
Import VectorStore.
Section WithRuntime.
Context {RT : Runtime}.

(** [self.hyde_prompt.format(question=question)] *)
Definition hyde_prompt (question : string) : string :=
  "请基于以下问题生成一个假设性的详细答案。这个答案将用于文档检索，所以请包含可能相关的关键词和概念。

问题: " +:+ question +:+ "

假设性答案:".

(** [HyDERetriever.generate_hypothetical_answer]: a failed generation
    falls back to the question itself. *)
Definition generate_hypothetical_answer (question : string) : M string :=
  fun w =>
    match chat_completions_create (MODEL_NAME settings)
            (hyde_prompt question) 0.3%Q 300 w with
    | (Ok response, w') => (Ok (message_content response), w')
    | (Raise e, w') => (Ok question, w')
    end.

(** The merge loop of [hyde_retrieve]: [unique_results] and
    [seen_content] are the two accumulators, the loop stops as soon as
    [k] results are collected. *)
Fixpoint merge_unique (k : Z) (all_results unique_results : list Document)
    (seen_content : gset Z) : list Document :=
  match all_results with
  | [] => unique_results
  | doc :: rest =>
      let content_hash := hash (page_content doc) in
      if bool_decide (content_hash ∈ seen_content)
      then merge_unique k rest unique_results seen_content
      else
        let seen_content := {[content_hash]} ∪ seen_content in
        let unique_results := unique_results ++ [doc] in
        if len unique_results >=? k then unique_results
        else merge_unique k rest unique_results seen_content
  end.

(** [HyDERetriever.hyde_retrieve] *)
Definition hyde_retrieve (question : string) (k : option Z)
  : M (list Document) :=
  let k := or_default k (TOP_K settings) in
  hypothetical_answer <- generate_hypothetical_answer question ;;
  hyde_results <- similarity_search hypothetical_answer (Some (k * 2)) ;;
  question_results <- similarity_search question (Some k) ;;
  let all_results := hyde_results ++ question_results in
  let unique_results := merge_unique k all_results [] ∅ in
  ret (slice_to k unique_results).
End WithRuntime.
End HyDE.

(** ** [core/enhanced_rag_chain.py] *)

(** A citation dictionary; [cit_rerank_score] is present in the rerank modes
    only. *)
Record Citation : Type := mkCitation {
  cit_chunk_id : Z;
  cit_content : string;
  cit_source : pyval;
  cit_chunk_index : pyval;
  cit_retrieval_method : string;
  cit_rerank_score : option Q
}.

(** The dictionary every [ask_*] method returns. *)
Record AnswerResult : Type := mkAnswerResult {
  question : string;
  answer : string;
  citations : list Citation;
  confidence : Q;
  response_time : Q;
  source_count : Z;
  tokens_used : option Z;
  retrieval_method : string
}.

Module Chain.
Import Text VectorStore HyDE Reranker.

(** [self.system_prompt.format(context=context, question=question)] *)
Definition system_prompt (context question : string) : string :=
  "你是一个专业的AI助手。请基于以下文档内容回答用户的问题。

请严格遵循以下要求：
1. 只基于提供的文档内容回答，不要编造信息
2. 如果文档中没有足够信息，请明确说明
3. 回答要简洁明了，突出重点
4. 适当引用文档中的原文
5. 用中文回答

相关文档内容：
" +:+ context +:+ "

用户问题：" +:+ question +:+ "

请提供准确、有用的回答：".

(** [sep.join(parts)] *)
Fixpoint join (sep : string) (parts : list string) : string :=
  match parts with
  | [] => EmptyString
  | [p] => p
  | p :: rest => p +:+ sep +:+ join sep rest
  end.

(** [set(s.lower().split())] *)
Definition split_set (s : string) : gset string :=
  list_to_set (split (lower s)).

Definition nonempty (s : gset string) : bool := negb (bool_decide (s = ∅)).

(** *** The parts of [calculate_enhanced_confidence] *)

(** [0.1 if retrieval_method == "hyde" else 0.0] *)
Definition method_bonus (retrieval_method : string) : Q :=
  if String.eqb retrieval_method "hyde" then 0.1%Q else 0.0%Q.

(** The loop that adds up the overlap of the question with every
    document. *)
Definition relevance_step (question_words : gset string) (relevance_score : Q)
    (doc : Document) : Q :=
  let doc_words := split_set (page_content doc) in
  if nonempty question_words && nonempty doc_words then
    let overlap :=
      (float_of_int (Z.of_nat (size (question_words ∩ doc_words)))
       / float_of_int (Z.of_nat (size (question_words ∪ doc_words))))%Q in
    (relevance_score + overlap)%Q
  else relevance_score.

Definition relevance_sum (question_words : gset string)
    (source_docs : list Document) : Q :=
  fold_left (relevance_step question_words) source_docs 0%Q.

(** The loop that counts the question words found in the answer. *)
Definition keyword_step (answer : string) (keyword_score : Z) (word : string)
  : Z :=
  if (2 <? slen word) && contains word (lower answer)
  then keyword_score + 1 else keyword_score.

Definition keyword_count (question_words : gset string) (answer : string)
  : Z :=
  fold_left (keyword_step answer) (elements question_words) 0.

(** [min(keyword_score / max(len(question_words), 1), 1.0) * 0.1] *)
Definition keyword_score (question answer : string) : result Q :=
  let question_words := split_set question in
  rbind (truediv (float_of_int (keyword_count question_words answer))
           (float_of_int (Z.max (Z.of_nat (size question_words)) 1)))
    (fun ratio => Ok (py_min ratio 1 * 0.1)%Q).

(** [min(len(answer.split()) / 50, 1.0) * 0.2] *)
Definition answer_length_score (answer : string) : Q :=
  (py_min (float_of_int (len (split answer)) / 50) 1 * 0.2)%Q.

Section WithRuntime.
Context {RT : Runtime}.

(** [min(len(source_docs) / settings.TOP_K, 1.0) * 0.3] *)
Definition doc_score (source_docs : list Document) : result Q :=
  rbind (truediv (float_of_int (len source_docs))
           (float_of_int (TOP_K settings)))
    (fun ratio => Ok (py_min ratio 1 * 0.3)%Q).

(** [min(relevance_score / len(source_docs), 1.0) * 0.3] *)
Definition relevance_score (source_docs : list Document)
    (question : string) : result Q :=
  match source_docs with
  | [] => Ok 0%Q
  | _ =>
      rbind (truediv (relevance_sum (split_set question) source_docs)
               (float_of_int (len source_docs)))
        (fun mean => Ok (py_min mean 1 * 0.3)%Q)
  end.

(** [EnhancedRAGChain.calculate_enhanced_confidence] *)
Definition calculate_enhanced_confidence (source_docs : list Document)
    (question answer retrieval_method : string) : result Q :=
  match source_docs with
  | [] => Ok 0.1%Q
  | _ =>
      rbind (doc_score source_docs) (fun doc_score =>
      let method_bonus := method_bonus retrieval_method in
      rbind (relevance_score source_docs question) (fun relevance_score =>
      let answer_length_score := answer_length_score answer in
      rbind (keyword_score question answer) (fun keyword_score =>
      let total_confidence :=
        (doc_score + relevance_score + answer_length_score
         + keyword_score + method_bonus)%Q in
      Ok (py_min (py_max total_confidence 0.1) 0.95)%Q)))
  end.

(** *** Building the prompt and the citations *)

(** [content[:200] + "..." if len(content) > 200 else content] *)
Definition preview (content : string) : string :=
  if 200 <? slen content then String.substring 0 200 content +:+ "..."
  else content.

Definition citation_of (method : string) (i : nat) (doc : Document)
    (score : option Q) : Citation :=
  {| cit_chunk_id := Z.of_nat i;
     cit_content := preview (page_content doc);
     cit_source := default (VStr "unknown") (metadata doc !! "source_file");
     cit_chunk_index := default (VInt (Z.of_nat i)) (metadata doc !! "chunk_id");
     cit_retrieval_method := method;
     cit_rerank_score := score |}.

Definition context_part (i : nat) (doc : Document) : string :=
  "文档片段 " +:+ pretty (Z.of_nat i + 1) +:+ ":
" +:+ page_content doc.

Definition newline2 : string := "

".

(** The [except Exception as e] branch shared by the four methods. *)
Definition error_result (question : string) (method : string)
    (start_time : Q) (e : exn) : World -> AnswerResult * World :=
  fun w =>
    let '(now, w') := time_time w in
    ({| question := question;
        answer := "抱歉，回答问题时出现错误：" +:+ str_exn e;
        citations := [];
        confidence := 0.0%Q;
        response_time := (now - start_time)%Q;
        source_count := 0;
        tokens_used := Some 0;
        retrieval_method := method |}, w').

(** The success dictionary. *)
Definition answer_result (question answer : string)
    (citations : list Citation) (confidence response_time : Q)
    (source_docs : list Document) (tokens_used : option Z)
    (method : string) : AnswerResult :=
  {| question := question;
     answer := answer;
     citations := citations;
     confidence := confidence;
     response_time := response_time;
     source_count := len source_docs;
     tokens_used := tokens_used;
     retrieval_method := method |}.

(** *** The four methods: the [try] block, then the method *)

Definition ask_basic_try (question : string) (start_time : Q)
  : M AnswerResult :=
  source_docs <- similarity_search question (Some (TOP_K settings)) ;;
  let context_parts := imap context_part source_docs in
  let citations :=
    imap (fun i doc => citation_of "basic" i doc None) source_docs in
  let context := join newline2 context_parts in
  let full_prompt := system_prompt context question in
  response <- chat_completions_create (MODEL_NAME settings) full_prompt
                0.1%Q 1000 ;;
  let answer := message_content response in
  now <- total time_time ;;
  let response_time := (now - start_time)%Q in
  confidence <- lift (calculate_enhanced_confidence source_docs question
                        answer "basic") ;;
  let tokens_used := usage_total_tokens response in
  ret (answer_result question answer citations confidence response_time
         source_docs tokens_used "basic").

(** [EnhancedRAGChain.ask_basic] *)
Definition ask_basic (question : string) : World -> AnswerResult * World :=
  fun w =>
    let '(start_time, w) := time_time w in
    try_except (ask_basic_try question start_time)
      (error_result question "basic" start_time) w.

Definition ask_hyde_try (question : string) (start_time : Q)
  : M AnswerResult :=
  source_docs <- hyde_retrieve question (Some (TOP_K settings)) ;;
  let context_parts := imap context_part source_docs in
  let citations :=
    imap (fun i doc => citation_of "hyde" i doc None) source_docs in
  let context := join newline2 context_parts in
  let full_prompt := system_prompt context question in
  response <- chat_completions_create (MODEL_NAME settings) full_prompt
                0.1%Q 1000 ;;
  let answer := message_content response in
  now <- total time_time ;;
  let response_time := (now - start_time)%Q in
  confidence <- lift (calculate_enhanced_confidence source_docs question
                        answer "hyde") ;;
  let tokens_used := usage_total_tokens response in
  ret (answer_result question answer citations confidence response_time
         source_docs tokens_used "hyde").

(** [EnhancedRAGChain.ask_hyde] *)
Definition ask_hyde (question : string) : World -> AnswerResult * World :=
  fun w =>
    let '(start_time, w) := time_time w in
    try_except (ask_hyde_try question start_time)
      (error_result question "hyde" start_time) w.

Definition ask_rerank_try (question : string) (start_time : Q)
  : M AnswerResult :=
  candidate_docs <- similarity_search question (Some (TOP_K settings * 2)) ;;
  let ranked_docs :=
    simple_rerank question candidate_docs (Some (TOP_K settings)) in
  let source_docs := map fst ranked_docs in
  let context_parts := imap (fun i ds => context_part i (fst ds)) ranked_docs in
  let citations :=
    imap (fun i ds =>
            citation_of "rerank" i (fst ds) (Some (round3 (snd ds))))
      ranked_docs in
  let context := join newline2 context_parts in
  let full_prompt := system_prompt context question in
  response <- chat_completions_create (MODEL_NAME settings) full_prompt
                0.1%Q 1000 ;;
  let answer := message_content response in
  now <- total time_time ;;
  let response_time := (now - start_time)%Q in
  confidence <- lift (calculate_enhanced_confidence source_docs question
                        answer "rerank") ;;
  let tokens_used := usage_total_tokens response in
  ret (answer_result question answer citations confidence response_time
         source_docs tokens_used "rerank").

(** [EnhancedRAGChain.ask_rerank] *)
Definition ask_rerank (question : string) : World -> AnswerResult * World :=
  fun w =>
    let '(start_time, w) := time_time w in
    try_except (ask_rerank_try question start_time)
      (error_result question "rerank" start_time) w.

Definition ask_enhanced_try (question : string) (start_time : Q)
  : M AnswerResult :=
  candidate_docs <- hyde_retrieve question (Some (TOP_K settings * 2)) ;;
  let ranked_docs :=
    simple_rerank question candidate_docs (Some (TOP_K settings)) in
  let source_docs := map fst ranked_docs in
  let context_parts := imap (fun i ds => context_part i (fst ds)) ranked_docs in
  let citations :=
    imap (fun i ds =>
            citation_of "hyde+rerank" i (fst ds) (Some (round3 (snd ds))))
      ranked_docs in
  let context := join newline2 context_parts in
  let full_prompt := system_prompt context question in
  response <- chat_completions_create (MODEL_NAME settings) full_prompt
                0.1%Q 1000 ;;
  let answer := message_content response in
  now <- total time_time ;;
  let response_time := (now - start_time)%Q in
  confidence <- lift (calculate_enhanced_confidence source_docs question
                        answer "hyde+rerank") ;;
  let tokens_used := usage_total_tokens response in
  ret (answer_result question answer citations confidence response_time
         source_docs tokens_used "hyde+rerank").

(** [EnhancedRAGChain.ask_enhanced] *)
Definition ask_enhanced (question : string) : World -> AnswerResult * World :=
  fun w =>
    let '(start_time, w) := time_time w in
    try_except (ask_enhanced_try question start_time)
      (error_result question "hyde+rerank" start_time) w.
End WithRuntime.
End Chain.

(** ** [app.py]: the choice of the method *)

Module App.
Import Chain.

(** The four branches of the [if rag_method == ...] chain. *)
Inductive branch : Type := Basic | Hyde | Rerank | Enhanced.


(** Which branch the chain takes for a method name: three tests and a
    final [else]. *)
Definition select (rag_method : string) : branch :=
  if String.eqb rag_method "basic" then Basic
  else if String.eqb rag_method "hyde" then Hyde
  else if String.eqb rag_method "rerank" then Rerank
  else Enhanced.

Section WithRuntime.
Context {RT : Runtime}.

Definition run (b : branch) (prompt : string)
  : World -> AnswerResult * World :=
  match b with
  | Basic => ask_basic prompt
  | Hyde => ask_hyde prompt
  | Rerank => ask_rerank prompt
  | Enhanced => ask_enhanced prompt
  end.

(** [result = enhanced_rag_chain.ask_...(prompt)] as chosen by
    [rag_method]. *)
Definition dispatch (rag_method prompt : string)
  : World -> AnswerResult * World :=
  run (select rag_method) prompt.
End WithRuntime.
End App.

(** ** Reference definitions

    What the specification's sentences say, written down independently of
    the code, to be compared with it. *)

Module Reference.
Import Text.

(** Jaccard similarity of two token sets; two empty sets have
    similarity 0. *)
Definition jaccard (a b : gset string) : Q :=
  if bool_decide (a ∪ b = ∅) then 0%Q
  else (inject_Z (Z.of_nat (size (a ∩ b)))
        / inject_Z (Z.of_nat (size (a ∪ b))))%Q.

(** The case-folded word tokens of a text, as a set. *)
Definition word_tokens (s : string) : gset string :=
  list_to_set (findall_w (lower s)).

(** The distinct case-folded whitespace-separated tokens of a question. *)
Definition question_tokens (question : string) : list string :=
  remove_dups (split (lower question)).

Definition long_token (w : string) : bool := 2 <? slen w.

Definition appears_in (answer w : string) : bool :=
  contains w (lower answer).

(** "The fraction of question tokens of length greater than 2 that
      appear in the answer, times 0.1": the tokens longer than 2 are the
    population, those found in the answer are counted. *)
Definition keyword_fraction_of_long_tokens (question answer : string) : Q :=
  let long := filter (fun w => long_token w = true) (question_tokens question) in
  let found := filter (fun w => appears_in answer w = true) long in
  match long with
  | [] => 0%Q
  | _ => (inject_Z (len found) / inject_Z (len long) * 0.1)%Q
  end.

(** What the code computes: the same count over all distinct question
    tokens. *)
Definition keyword_fraction_of_all_tokens (question answer : string) : Q :=
  let all := question_tokens question in
  let found :=
    filter (fun w => long_token w && appears_in answer w = true) all in
  (inject_Z (len found) / inject_Z (Z.max (len all) 1) * 0.1)%Q.

(** "The bonus is 0.1 whenever the method used HyDE": the two methods
    that retrieve through HyDE. *)
Definition uses_hyde (retrieval_method : string) : bool :=
  String.eqb retrieval_method "hyde" || String.eqb retrieval_method "hyde+rerank".

Definition method_bonus_if_hyde_used (retrieval_method : string) : Q :=
  if uses_hyde retrieval_method then 0.1%Q else 0%Q.

(** Deduplication by exact content, keeping the first chunk seen with
    each content. *)
Fixpoint first_seen (seen : list string) (docs : list Document)
  : list Document :=
  match docs with
  | [] => []
  | doc :: rest =>
      if bool_decide (page_content doc ∈ seen) then first_seen seen rest
      else doc :: first_seen (page_content doc :: seen) rest
  end.

(** "An unknown mode is a caller error": the dispatch table with an
    error for every other name. *)
Definition dispatch_table (mode : string) : option App.branch :=
  if String.eqb mode "basic" then Some App.Basic
  else if String.eqb mode "hyde" then Some App.Hyde
  else if String.eqb mode "rerank" then Some App.Rerank
  else if String.eqb mode "enhanced" then Some App.Enhanced
  else None.

(** Scores in non-increasing order. *)
Definition sorted_desc (l : list (Document * Q)) : Prop :=
  forall i j p q, (i < j)%nat -> l !! i = Some p -> l !! j = Some q ->
                  (snd q <= snd p)%Q.

(** The pairs of a list whose score equals [s], in their order. *)
Definition with_score (s : Q) (l : list (Document * Q))
  : list (Document * Q) :=
  List.filter (fun p => Qeq_bool (snd p) s) l.

(** [p] may stand before [q] in a list sorted by decreasing score. *)
Definition score_ge (p q : Document * Q) : Prop := (snd q <= snd p)%Q.

(** [min(max(total, 0.1), 0.95)] *)
Definition clamp (total : Q) : Q := py_min (py_max total 0.1) 0.95.

Section WithRuntime.
Import Chain App.
Context {RT : Runtime}.

Definition content_hash (doc : Document) : Z := hash (page_content doc).

(** The hash separates the contents of the given chunks. *)
Definition hash_separates (docs : list Document) : Prop :=
  forall a b, a ∈ docs -> b ∈ docs ->
              content_hash a = content_hash b ->
              page_content a = page_content b.

(** The [try] block of the method a branch runs, and its method tag. *)
Definition try_block (b : branch) (question : string) (start_time : Q)
  : M AnswerResult :=
  match b with
  | Basic => ask_basic_try question start_time
  | Hyde => ask_hyde_try question start_time
  | Rerank => ask_rerank_try question start_time
  | Enhanced => ask_enhanced_try question start_time
  end.

Definition method_tag (b : branch) : string :=
  match b with
  | Basic => "basic"
  | Hyde => "hyde"
  | Rerank => "rerank"
  | Enhanced => "hyde+rerank"
  end.

(** The candidates a branch starts from. *)
Definition candidates (b : branch) (question : string)
  : M (list Document) :=
  match b with
  | Basic => VectorStore.similarity_search question (Some (TOP_K settings))
  | Hyde => HyDE.hyde_retrieve question (Some (TOP_K settings))
  | Rerank =>
      VectorStore.similarity_search question (Some (TOP_K settings * 2))
  | Enhanced => HyDE.hyde_retrieve question (Some (TOP_K settings * 2))
  end.

(** The store never returns more chunks than it is asked for. *)
Definition store_returns_at_most_k : Prop :=
  forall query k w docs w',
    1 <= k ->
    chroma_similarity_search query k w = (Ok docs, w') ->
    len docs <= k.

(** HyDE retrieval for a given [k], with its two queries to the store
    written out: [2k] chunks for the hypothetical answer, then [k] for the
    question. *)
Definition hyde_retrieve_with (question : string) (k : Z)
  : M (list Document) :=
  hypothetical_answer <- HyDE.generate_hypothetical_answer question ;;
  hyde_results <- chroma_similarity_search hypothetical_answer (k * 2) ;;
  question_results <- chroma_similarity_search question k ;;
  ret (slice_to k (HyDE.merge_unique k (hyde_results ++ question_results)
                     [] ∅)).

(** The chat endpoint fails with [e] in world [w], whatever it is
    asked. *)
Definition generation_fails (w : World) (e : exn) (w' : World) : Prop :=
  forall model prompt temperature max_tokens,
    chat_completions_create model prompt temperature max_tokens w
    = (Raise e, w').
End WithRuntime.
End Reference.

(** ** A runtime to run the pipeline on

    A store that is a list of chunks and answers every query with its
    first [k] chunks, a model that gives one fixed answer, a clock that
    ticks once per reading.  Either collaborator can be switched off, in
    which case its calls raise. *)

Module Demo.

Definition chunk (text : string) : Document := mkDocument text ∅.

Definition runtime (store : list Document) (store_up llm_up : bool)
    (top_k : Z) : Runtime :=
  {| World := nat;
     time_time := fun w => (inject_Z (Z.of_nat w), S w);
     chroma_similarity_search := fun _ k w =>
       if store_up then (Ok (take (Z.to_nat k) store), w)
       else (Raise (RuntimeError "store unreachable"), w);
     chat_completions_create := fun _ _ _ _ w =>
       if llm_up
       then (Ok (mkChatResponse "RAG combines retrieval and generation" (Some 42)), w)
       else (Raise (RuntimeError "generation unreachable"), w);
     hash := fun s => Z.pos (encode s);
     settings := mkSettings top_k "gpt-3.5-turbo" |}.

Definition rag : Document := chunk "RAG combines retrieval and generation.".
Definition hyde : Document := chunk "HyDE writes a hypothetical answer first.".
Definition rank : Document := chunk "Reranking reorders the candidates.".
Definition store3 : list Document := [rag; hyde; rag; rank].

End Demo.

(** ** More text functions *)

Module TextMore.
Import Text.

(** [\d] on the ASCII range. *)
Definition is_digit (c : ascii) : bool :=
  let n := code c in ((48 <=? n) && (n <=? 57))%N.

(** [s.lstrip()], [s.rstrip()] and [s.strip()] *)
Fixpoint lstrip (s : string) : string :=
  match s with
  | EmptyString => EmptyString
  | String c s' => if is_space c then lstrip s' else s
  end.

Fixpoint rstrip (s : string) : string :=
  match s with
  | EmptyString => EmptyString
  | String c s' =>
      match rstrip s' with
      | EmptyString => if is_space c then EmptyString else String c EmptyString
      | t => String c t
      end
  end.

Definition strip (s : string) : string := lstrip (rstrip s).

(** [re.search(r'\d+', s)]: the leftmost, longest run of digits. *)
Definition search_digits (s : string) : option string :=
  head (runs is_digit EmptyString s).

(** [int(ds)] on a string of digits, most significant digit first. *)
Definition digit_value (c : ascii) : Z := Z.of_N (code c) - 48.

Fixpoint int_of_digits_from (acc : Z) (ds : string) : Z :=
  match ds with
  | EmptyString => acc
  | String c ds' => int_of_digits_from (acc * 10 + digit_value c) ds'
  end.

Definition int_of_digits (ds : string) : Z := int_of_digits_from 0 ds.

(** Every character of [s] passes the test. *)
Fixpoint all_chars (keep : ascii -> bool) (s : string) : bool :=
  match s with
  | EmptyString => true
  | String c s' => keep c && all_chars keep s'
  end.

End TextMore.

(** ** [core/reranker.py], the scoring that asks the model *)

Module RerankerLLM.
Import Text TextMore Reranker.

(** The f-string of [calculate_semantic_score]. *)
Definition semantic_prompt (query document : string) : string :=
  "
请评估以下文档内容与用户问题的相关性，给出0-10分的评分：

用户问题: " +:+ query +:+ "

文档内容: " +:+ String.substring 0 500 document +:+ "...

评分标准:
- 10分: 完全相关，直接回答问题
- 8-9分: 高度相关，包含重要信息
- 6-7分: 中等相关，有一定参考价值
- 4-5分: 低度相关，包含少量相关信息
- 0-3分: 不相关或无关

请只返回数字评分(0-10):".

(** What [calculate_semantic_score] makes of the reply once it is
    stripped: the first run of digits over 10, cut to [0, 1]; 0.5 when
    there is no digit. *)
Definition score_of_reply (score_text : string) : Q :=
  match search_digits score_text with
  | Some digits =>
      let score := (float_of_int (int_of_digits digits) / 10.0)%Q in
      py_min (py_max score 0.0%Q) 1.0%Q
  | None => 0.5%Q
  end.

Section WithRuntime.
Context {RT : Runtime}.

(** [SimpleReranker.calculate_semantic_score]: any exception gives 0.5. *)
Definition calculate_semantic_score (query document : string)
  : World -> Q * World :=
  fun w =>
    match chat_completions_create (MODEL_NAME settings)
            (semantic_prompt query document) 0.1%Q 10 w with
    | (Ok response, w') =>
        (score_of_reply (strip (message_content response)), w')
    | (Raise e, w') => (0.5%Q, w')
    end.


End WithRuntime.

(** The dictionary [compare_ranking_methods] returns. *)
Record RankingComparison : Type := mkRankingComparison {
  rc_query : string;
  original_order : list (Document * Q);
  simple_ranking : list (Document * Q);
  documents_count : Z
}.

(** [SimpleReranker.compare_ranking_methods]; [top_k] is 5 when the caller
    leaves it out. *)
Definition compare_ranking_methods (query : string)
    (documents : list Document) (top_k : Z) : RankingComparison :=
  let original_order :=
    map (fun doc => (doc, 0.0%Q)) (slice_to top_k documents) in
  let simple_ranking := simple_rerank query documents (Some top_k) in
  {| rc_query := query;
     original_order := original_order;
     simple_ranking := simple_ranking;
     documents_count := len documents |}.

End RerankerLLM.

(** ** [core/vector_store_compatible.py], the embedding client *)

Module Embeddings.

(** What is sent as [input]: a batch of texts or one text. *)
Inductive emb_input : Type :=
| InputBatch (texts : list string)
| InputText (text : string).

Definition vector : Type := list Q.

(** [[0.0] * 1536] *)
Definition zero_vector : vector := replicate 1536 0.0%Q.

Definition batch_size : nat := 10.

(** [range(0, n, batch_size)] *)
Definition batch_starts (n : nat) : list nat :=
  map (fun j => (j * batch_size)%nat)
    (seq 0 (Nat.div (n + (batch_size - 1)) batch_size)).

(** [texts[i:i + batch_size]] *)
Definition batch_at (texts : list string) (i : nat) : list string :=
  take batch_size (drop i texts).

Section WithApi.
Context {RT : Runtime}.

(** [client.embeddings.create(model=..., input=...)], read as the list
    [[item.embedding for item in response.data]]. *)
Variable embeddings_create :
  string -> emb_input -> World -> result (list vector) * World.

Definition embedding_model : string := "text-embedding-ada-002".

(** The inner loop of the [except] branch: one call per text, the zero
    vector for a text whose call fails (or answers with no data). *)
Fixpoint embed_one_by_one (batch : list string) (embeddings : list vector)
  : World -> list vector * World :=
  fun w =>
    match batch with
    | [] => (embeddings, w)
    | text :: rest =>
        match embeddings_create embedding_model (InputText text) w with
        | (Ok (embedding :: _), w') =>
            embed_one_by_one rest (embeddings ++ [embedding]) w'
        | (Ok [], w') =>
            embed_one_by_one rest (embeddings ++ [zero_vector]) w'
        | (Raise single_e, w') =>
            embed_one_by_one rest (embeddings ++ [zero_vector]) w'
        end
    end.

(** The body of the batch loop. *)
Definition embed_batch (batch : list string) (embeddings : list vector)
  : World -> list vector * World :=
  fun w =>
    match embeddings_create embedding_model (InputBatch batch) w with
    | (Ok batch_embeddings, w') => (embeddings ++ batch_embeddings, w')
    | (Raise e, w') => embed_one_by_one batch embeddings w'
    end.

Fixpoint embed_batches (batches : list (list string)) (embeddings : list vector)
  : World -> list vector * World :=
  fun w =>
    match batches with
    | [] => (embeddings, w)
    | batch :: rest =>
        let '(embeddings, w) := embed_batch batch embeddings w in
        embed_batches rest embeddings w
    end.

(** [CompatibleEmbeddings.embed_documents] *)
Definition embed_documents (texts : list string)
  : World -> list vector * World :=
  embed_batches (map (batch_at texts) (batch_starts (length texts))) [].

(** [CompatibleEmbeddings.embed_query]: no handler, the exception of the
    call and the [IndexError] of an empty answer reach the caller. *)
Definition embed_query (text : string) : World -> result vector * World :=
  fun w =>
    match embeddings_create embedding_model (InputText text) w with
    | (Ok (embedding :: _), w') => (Ok embedding, w')
    | (Ok [], w') => (Raise (RuntimeError "list index out of range"), w')
    | (Raise e, w') => (Raise e, w')
    end.
End WithApi.
End Embeddings.

(** ** [core/enhanced_rag_chain.py], the comparison of the methods *)

Module ChainCompare.
Import Chain.

(** [d[key] = value] on a dictionary kept as the list of its items in
    insertion order: a known key keeps its place. *)
Fixpoint dict_set {V : Type} (d : list (string * V)) (key : string) (value : V)
  : list (string * V) :=
  match d with
  | [] => [(key, value)]
  | (k, v) :: rest =>
      if String.eqb k key then (k, value) :: rest
      else (k, v) :: dict_set rest key value
  end.

(** [sorted(items, key=lambda x: x[1], reverse=True)] and
    [sorted(items, key=lambda x: x[1])]: stable sorts on the second
    component. *)
Fixpoint insert_rank_desc (x : string * Q) (l : list (string * Q))
  : list (string * Q) :=
  match l with
  | [] => [x]
  | y :: l' =>
      if Qlt_le_dec (snd x) (snd y) then y :: insert_rank_desc x l' else x :: l
  end.

Fixpoint sorted_desc_by_value (l : list (string * Q)) : list (string * Q) :=
  match l with
  | [] => []
  | x :: l' => insert_rank_desc x (sorted_desc_by_value l')
  end.

Fixpoint insert_rank_asc (x : string * Q) (l : list (string * Q))
  : list (string * Q) :=
  match l with
  | [] => [x]
  | y :: l' =>
      if Qlt_le_dec (snd y) (snd x) then y :: insert_rank_asc x l' else x :: l
  end.

Fixpoint sorted_asc_by_value (l : list (string * Q)) : list (string * Q) :=
  match l with
  | [] => []
  | x :: l' => insert_rank_asc x (sorted_asc_by_value l')
  end.

(** The dictionary [compare_methods] returns. *)
Record MethodComparison : Type := mkMethodComparison {
  mc_question : string;
  mc_results : list (string * AnswerResult);
  confidence_ranking : list (string * Q);
  speed_ranking : list (string * Q)
}.

Section WithRuntime.
Context {RT : Runtime}.

(** The [methods] dictionary. *)
Definition methods : list (string * (string -> World -> AnswerResult * World)) :=
  [("basic"%string, ask_basic); ("hyde"%string, ask_hyde);
   ("rerank"%string, ask_rerank); ("enhanced"%string, ask_enhanced)].

(** [for method_name, method_func in methods.items():
       results[method_name] = method_func(question)] *)
Fixpoint run_methods
    (methods : list (string * (string -> World -> AnswerResult * World)))
    (question : string) (results : list (string * AnswerResult))
  : World -> list (string * AnswerResult) * World :=
  fun w =>
    match methods with
    | [] => (results, w)
    | (method_name, method_func) :: rest =>
        let '(r, w) := method_func question w in
        run_methods rest question (dict_set results method_name r) w
    end.

(** [EnhancedRAGChain.compare_methods] *)
Definition compare_methods (question : string)
  : World -> MethodComparison * World :=
  fun w =>
    let '(results, w) := run_methods methods question [] w in
    ({| mc_question := question;
        mc_results := results;
        confidence_ranking :=
          sorted_desc_by_value
            (map (fun kv => (fst kv, confidence (snd kv))) results);
        speed_ranking :=
          sorted_asc_by_value
            (map (fun kv => (fst kv, response_time (snd kv))) results) |}, w).
End WithRuntime.
End ChainCompare.

(** ** [core/qa_chain_simple.py] *)

Module SimpleChain.
Import Text VectorStore Chain.

(** The citation and result dictionaries of [SimpleRAGChain]: no method
    tag, no rerank score. *)
Record SimpleCitation : Type := mkSimpleCitation {
  sc_chunk_id : Z;
  sc_content : string;
  sc_source : pyval;
  sc_chunk_index : pyval
}.

Record SimpleResult : Type := mkSimpleResult {
  sr_question : string;
  sr_answer : string;
  sr_citations : list SimpleCitation;
  sr_confidence : Q;
  sr_response_time : Q;
  sr_source_count : Z;
  sr_tokens_used : option Z
}.

(** [self.system_prompt.format(context=context, question=question)] *)
Definition simple_system_prompt (context question : string) : string :=
  "你是一个专业的AI助手。请基于以下文档内容回答用户的问题。

请遵循以下要求：
1. 只基于提供的文档内容回答，不要编造信息
2. 如果文档中没有相关信息，请明确说明
3. 回答要简洁明了，突出重点
4. 可以适当引用文档中的原文

相关文档内容：
" +:+ context +:+ "

用户问题：" +:+ question +:+ "

请提供准确、有用的回答：".

Section WithRuntime.
Context {RT : Runtime}.

(** [min(len(source_docs) / settings.TOP_K, 1.0) * 0.4] *)
Definition simple_doc_score (source_docs : list Document) : result Q :=
  rbind (truediv (float_of_int (len source_docs))
           (float_of_int (TOP_K settings)))
    (fun ratio => Ok (py_min ratio 1 * 0.4)%Q).

(** [SimpleRAGChain.calculate_confidence]: the relevance, answer-length and
    keyword parts are written as in [calculate_enhanced_confidence]. *)
Definition calculate_confidence (source_docs : list Document)
    (question answer : string) : result Q :=
  match source_docs with
  | [] => Ok 0.1%Q
  | _ =>
      rbind (simple_doc_score source_docs) (fun doc_score =>
      rbind (relevance_score source_docs question) (fun relevance_score =>
      let answer_length_score := answer_length_score answer in
      rbind (keyword_score question answer) (fun keyword_score =>
      let total_confidence :=
        (doc_score + relevance_score + answer_length_score + keyword_score)%Q in
      Ok (py_min (py_max total_confidence 0.1) 0.95)%Q)))
  end.

Definition simple_citation_of (i : nat) (doc : Document) : SimpleCitation :=
  {| sc_chunk_id := Z.of_nat i;
     sc_content := preview (page_content doc);
     sc_source := default (VStr "unknown") (metadata doc !! "source_file");
     sc_chunk_index :=
       default (VInt (Z.of_nat i)) (metadata doc !! "chunk_id") |}.

(** The [try] block of [ask]. *)
Definition ask_try (question : string) (start_time : Q) : M SimpleResult :=
  source_docs <- similarity_search question (Some (TOP_K settings)) ;;
  let context_parts := imap context_part source_docs in
  let citations := imap simple_citation_of source_docs in
  let context := join newline2 context_parts in
  let full_prompt := simple_system_prompt context question in
  response <- chat_completions_create (MODEL_NAME settings) full_prompt
                0.1%Q 1000 ;;
  let answer := message_content response in
  now <- total time_time ;;
  let response_time := (now - start_time)%Q in
  confidence <- lift (calculate_confidence source_docs question answer) ;;
  let tokens_used := usage_total_tokens response in
  ret {| sr_question := question;
         sr_answer := answer;
         sr_citations := citations;
         sr_confidence := confidence;
         sr_response_time := response_time;
         sr_source_count := len source_docs;
         sr_tokens_used := tokens_used |}.

(** The [except] branch of [ask]. *)
Definition ask_error (question : string) (start_time : Q) (e : exn)
  : World -> SimpleResult * World :=
  fun w =>
    let '(now, w') := time_time w in
    ({| sr_question := question;
        sr_answer := "抱歉，回答问题时出现错误：" +:+ str_exn e;
        sr_citations := [];
        sr_confidence := 0.0%Q;
        sr_response_time := (now - start_time)%Q;
        sr_source_count := 0;
        sr_tokens_used := Some 0 |}, w').

(** [SimpleRAGChain.ask] *)
Definition ask (question : string) : World -> SimpleResult * World :=
  fun w =>
    let '(start_time, w) := time_time w in
    try_except (ask_try question start_time) (ask_error question start_time) w.
End WithRuntime.
End SimpleChain.

(** ** [evaluation/rag_evaluator.py], the scoring of one answer *)

Module Evaluator.
Import Text TextMore Chain.

(** The longest prefix of [s] whose characters pass the test. *)
Fixpoint take_while (keep : ascii -> bool) (s : string) : string :=
  match s with
  | EmptyString => EmptyString
  | String c s' => if keep c then String c (take_while keep s') else EmptyString
  end.

Definition is_zero_or_one (c : ascii) : bool :=
  let n := code c in ((n =? 48) || (n =? 49))%N.

Definition is_point (c : ascii) : bool := (code c =? 46)%N.

(** [re.match(r'[0-1]\.?\d*', s)]: a 0 or a 1, a point if one follows, then
    every digit that follows. *)
Definition match_rating (s : string) : option string :=
  match s with
  | EmptyString => None
  | String c rest =>
      if is_zero_or_one c then
        match rest with
        | String p rest' =>
            if is_point p
            then Some (String c (String p (take_while is_digit rest')))
            else Some (String c (take_while is_digit rest))
        | EmptyString => Some (String c EmptyString)
        end
      else None
  end.

(** [re.search(r'[0-1]\.?\d*', s)]: the match at the leftmost position
    that has one. *)
Fixpoint search_rating (s : string) : option string :=
  match match_rating s with
  | Some m => Some m
  | None =>
      match s with
      | EmptyString => None
      | String _ rest => search_rating rest
      end
  end.

(** [s[n:]] *)
Fixpoint string_drop (n : nat) (s : string) : string :=
  match n, s with
  | O, _ => s
  | S n', String _ s' => string_drop n' s'
  | S _, EmptyString => EmptyString
  end.

(** [float(m)] on the texts [search_rating] finds: digits, then perhaps a
    point and more digits. *)
Definition float_of_decimal (m : string) : Q :=
  let int_part := take_while is_digit m in
  match string_drop (String.length int_part) m with
  | String _ frac =>
      (inject_Z (int_of_digits int_part)
       + inject_Z (int_of_digits frac)
         / inject_Z (10 ^ Z.of_nat (String.length frac)))%Q
  | EmptyString => inject_Z (int_of_digits int_part)
  end.

(** What the three [evaluate_*] methods make of the stripped reply. *)
Definition rating_of_reply (score_text : string) : Q :=
  match search_rating score_text with
  | Some m => py_min (py_max (float_of_decimal m) 0.0%Q) 1.0%Q
  | None => 0.5%Q
  end.

(** The three prompt templates, filled in. *)
Definition faithfulness_prompt (context question answer : string) : string :=
  "
请评估AI回答相对于给定上下文的忠实度。

上下文: " +:+ context +:+ "
问题: " +:+ question +:+ "
AI回答: " +:+ answer +:+ "

评分标准:
- 1.0: 回答完全基于上下文，没有编造信息
- 0.8: 回答主要基于上下文，有少量合理推理
- 0.6: 回答部分基于上下文，有一些超出范围的内容
- 0.4: 回答少量基于上下文，大部分是推测
- 0.2: 回答基本不基于上下文
- 0.0: 回答完全编造，与上下文无关

请只返回数字评分(0.0-1.0):".

Definition relevance_prompt (question answer : string) : string :=
  "
请评估AI回答对用户问题的相关性。

问题: " +:+ question +:+ "
AI回答: " +:+ answer +:+ "

评分标准:
- 1.0: 完全回答了问题，高度相关
- 0.8: 很好地回答了问题，相关性强
- 0.6: 基本回答了问题，相关性中等
- 0.4: 部分回答了问题，相关性较低
- 0.2: 几乎没有回答问题
- 0.0: 完全没有回答问题

请只返回数字评分(0.0-1.0):".

Definition completeness_prompt (question answer : string) : string :=
  "
请评估AI回答的完整性。

问题: " +:+ question +:+ "
AI回答: " +:+ answer +:+ "

评分标准:
- 1.0: 回答非常完整详细，涵盖了问题的各个方面
- 0.8: 回答比较完整，涵盖了主要方面
- 0.6: 回答基本完整，但遗漏了一些重要信息
- 0.4: 回答不够完整，遗漏了较多信息
- 0.2: 回答很不完整，只涉及了少量内容
- 0.0: 回答极不完整或没有实质内容

请只返回数字评分(0.0-1.0):".

(** [round(x, 2)], idealised as [round3] is. *)
Definition round2 (x : Q) : Q :=
  let y := (x * 100)%Q in
  let f := Qfloor y in
  let r := (y - inject_Z f)%Q in
  let n := if Qlt_le_dec r 0.5 then f
           else if Qlt_le_dec 0.5 r then f + 1
           else if Z.even f then f else f + 1 in
  (inject_Z n / 100)%Q.

(** The [metrics] dictionary and the dictionary [evaluate_single_qa]
    returns. *)
Record Metrics : Type := mkMetrics {
  faithfulness : Q;
  relevance : Q;
  completeness : Q;
  overall_score : Q
}.

Record Evaluation : Type := mkEvaluation {
  ev_question : string;
  ev_answer : string;
  ev_context : string;
  metrics : Metrics;
  evaluation_time : Q
}.

Section WithRuntime.
Context {RT : Runtime}.

(** The body shared, word for word, by the three [evaluate_*] methods: one
    call, the rating of the stripped reply, 0.5 on any exception. *)
Definition rate (prompt : string) : World -> Q * World :=
  fun w =>
    match chat_completions_create (MODEL_NAME settings) prompt 0.1%Q 10 w with
    | (Ok response, w') =>
        (rating_of_reply (strip (message_content response)), w')
    | (Raise e, w') => (0.5%Q, w')
    end.

(** [RAGEvaluator.evaluate_faithfulness] *)
Definition evaluate_faithfulness (question answer context : string)
  : World -> Q * World :=
  rate (faithfulness_prompt (String.substring 0 1000 context) question answer).

(** [RAGEvaluator.evaluate_relevance] *)
Definition evaluate_relevance (question answer : string) : World -> Q * World :=
  rate (relevance_prompt question answer).

(** [RAGEvaluator.evaluate_completeness] *)
Definition evaluate_completeness (question answer : string)
  : World -> Q * World :=
  rate (completeness_prompt question answer).

(** [RAGEvaluator.evaluate_single_qa] *)
Definition evaluate_single_qa (question answer context : string)
  : World -> Evaluation * World :=
  fun w =>
    let '(start_time, w) := time_time w in
    let '(faithfulness, w) := evaluate_faithfulness question answer context w in
    let '(relevance, w) := evaluate_relevance question answer w in
    let '(completeness, w) := evaluate_completeness question answer w in
    let overall_score :=
      (faithfulness * 0.4 + relevance * 0.4 + completeness * 0.2)%Q in
    let '(now, w) := time_time w in
    let evaluation_time := (now - start_time)%Q in
    ({| ev_question := question;
        ev_answer := answer;
        ev_context := preview context;
        metrics := {| faithfulness := round3 faithfulness;
                      relevance := round3 relevance;
                      completeness := round3 completeness;
                      overall_score := round3 overall_score |};
        evaluation_time := round2 evaluation_time |}, w).
End WithRuntime.
End Evaluator.

(** ** More reference definitions *)

Module ReferenceMore.


(** Values in non-increasing and in non-decreasing order. *)
Definition values_desc (l : list (string * Q)) : Prop :=
  forall i j p q, (i < j)%nat -> l !! i = Some p -> l !! j = Some q ->
                  (snd q <= snd p)%Q.

Definition values_asc (l : list (string * Q)) : Prop :=
  forall i j p q, (i < j)%nat -> l !! i = Some p -> l !! j = Some q ->
                  (snd p <= snd q)%Q.

(** The integer [round3] picks between a floor [f] and [f + 1], given the
    remainder [r]. *)
Definition half_even_pick (f : Z) (r : Q) : Z :=
  if Qlt_le_dec r 0.5 then f
  else if Qlt_le_dec 0.5 r then f + 1
  else if Z.even f then f else f + 1.

Section Clock.
Context {RT : Runtime}.

(** What [time.time()] would read in a world. *)
Definition clock (w : World) : Q := fst (time_time w).

(** The clock never goes back: not by being read, not while the store or
    the model is at work. *)
Definition clock_never_goes_back : Prop :=
  (forall w, (clock w <= clock (snd (time_time w)))%Q)
  /\ (forall query k w, (clock w <= clock (snd (chroma_similarity_search query k w)))%Q)
  /\ (forall model prompt temperature max_tokens w,
        (clock w <= clock (snd (chat_completions_create model prompt temperature
                                  max_tokens w)))%Q).

(** A computation during which the clock does not go back. *)
Definition keeps_time {A} (m : M A) : Prop :=
  forall w r w', m w = (r, w') -> (clock w <= clock w')%Q.
End Clock.

Section Embedding.
Import Embeddings.
Context {RT : Runtime}.
Variable embeddings_create :
  string -> emb_input -> World -> result (list vector) * World.

(** A batch call that succeeds answers with one vector per text sent. *)
Definition batch_answers_in_full : Prop :=
  forall model batch w data w',
    embeddings_create model (InputBatch batch) w = (Ok data, w') ->
    length data = length batch.

(** The embedding endpoint is down: every call raises. *)
Definition embedding_outage : Prop :=
  forall model input w,
    exists e w', embeddings_create model input w = (Raise e, w').
End Embedding.

End ReferenceMore.

(** ** More collaborators to run the code on *)

Module DemoMore.
Import Text Embeddings.

(** The runtime of [Demo.runtime] with a model that gives the reply one
    chooses. *)
Definition runtime_replying (reply : string) (store : list Document)
    (top_k : Z) : Runtime :=
  {| World := nat;
     time_time := fun w => (inject_Z (Z.of_nat w), S w);
     chroma_similarity_search := fun _ k w =>
       (Ok (take (Z.to_nat k) store), w);
     chat_completions_create := fun _ _ _ _ w =>
       (Ok (mkChatResponse reply (Some 7)), w);
     hash := fun s => Z.pos (encode s);
     settings := mkSettings top_k "gpt-3.5-turbo" |}.

(** An embedding endpoint that answers with a one-number vector per text
    and raises on any input that holds the text [bad]. *)
Definition embed_api (bad : string)
  : string -> emb_input -> nat -> result (list vector) * nat :=
  fun _ input w =>
    match input with
    | InputBatch texts =>
        if bool_decide (bad ∈ texts)
        then (Raise (RuntimeError "bad input"), w)
        else (Ok (map (fun text => [inject_Z (slen text)]) texts), w)
    | InputText text =>
        if String.eqb text bad
        then (Raise (RuntimeError "bad input"), w)
        else (Ok [[inject_Z (slen text)]], w)
    end.

(** An embedding endpoint that is down. *)
Definition embed_down
  : string -> emb_input -> nat -> result (list vector) * nat :=
  fun _ _ w => (Raise (RuntimeError "embedding unreachable"), w).

End DemoMore.

(** * Properties *)

(** ** Numbers *)

Section Numbers.
Local Open Scope Q_scope.

Lemma py_min_Qmin a b : py_min a b == Qmin a b.
Proof.
  unfold py_min. destruct (Qlt_le_dec b a) as [Hlt|Hle].
  - symmetry. apply Q.min_r. now apply Qlt_le_weak.
  - symmetry. now apply Q.min_l.
Qed.

Lemma py_min_le_r a b : py_min a b <= b.
Proof. unfold py_min. destruct (Qlt_le_dec b a); lra. Qed.

Lemma py_min_le_l a b : py_min a b <= a.
Proof. unfold py_min. destruct (Qlt_le_dec b a); lra. Qed.

Lemma py_min_glb a b c : c <= a -> c <= b -> c <= py_min a b.
Proof. unfold py_min. destruct (Qlt_le_dec b a); lra. Qed.

Lemma py_max_ge_r a b : b <= py_max a b.
Proof. unfold py_max. destruct (Qlt_le_dec a b); lra. Qed.

(** A quotient of two counts, the first no larger than the second. *)
Lemma count_ratio_bounds (n m : nat) :
  (n <= m)%nat -> (0 < m)%nat ->
  0 <= inject_Z (Z.of_nat n) / inject_Z (Z.of_nat m) <= 1.
Proof.
  intros Hnm Hm.
  assert (Hpos : 0 < inject_Z (Z.of_nat m)).
  { change 0 with (inject_Z 0). rewrite <- Zlt_Qlt. lia. }
  split.
  - apply Qle_shift_div_l; [exact Hpos|].
    rewrite Qmult_0_l. change 0 with (inject_Z 0). rewrite <- Zle_Qle. lia.
  - apply Qle_shift_div_r; [exact Hpos|].
    rewrite Qmult_1_l. rewrite <- Zle_Qle. lia.
Qed.

Lemma count_nonneg (n : nat) : 0 <= inject_Z (Z.of_nat n).
Proof. change 0 with (inject_Z 0). rewrite <- Zle_Qle. lia. Qed.
End Numbers.

(** ** The lexical score *)

Section LexicalScore.
Import Text Reranker Reference.
Local Open Scope Q_scope.

Lemma lexical_similarity_jaccard query document :
  calculate_lexical_similarity query document
  == jaccard (word_tokens query) (word_tokens document).
Proof.
  unfold calculate_lexical_similarity, jaccard, word_set, word_tokens.
  set (a := list_to_set (findall_w (lower query)) : gset string).
  set (b := list_to_set (findall_w (lower document)) : gset string).
  destruct (decide (a = ∅)) as [Ha|Ha].
  - rewrite (bool_decide_eq_true_2 _ Ha). simpl.
    destruct (decide (a ∪ b = ∅)) as [Hu|Hu].
    + now rewrite (bool_decide_eq_true_2 _ Hu).
    + rewrite (bool_decide_eq_false_2 _ Hu).
      assert (a ∩ b = ∅) as -> by set_solver.
      rewrite size_empty. simpl. unfold Qdiv. now rewrite Qmult_0_l.
  - rewrite (bool_decide_eq_false_2 _ Ha). simpl.
    assert (Hu : a ∪ b ≠ ∅) by (intros Hu; apply Ha; set_solver).
    rewrite (bool_decide_eq_false_2 _ Hu).
    destruct (decide (b = ∅)) as [Hb|Hb].
    + rewrite (bool_decide_eq_true_2 _ Hb).
      assert (a ∩ b = ∅) as -> by set_solver.
      rewrite size_empty. simpl. unfold Qdiv. now rewrite Qmult_0_l.
    + now rewrite (bool_decide_eq_false_2 _ Hb).
Qed.

Lemma jaccard_bounds (a b : gset string) : 0 <= jaccard a b <= 1.
Proof.
  unfold jaccard. case_bool_decide as Hu; [lra|].
  apply count_ratio_bounds.
  - apply subseteq_size. set_solver.
  - destruct (size (a ∪ b)) eqn:Hs; [|lia].
    apply size_empty_iff in Hs. exfalso. apply Hu. now apply leibniz_equiv.
Qed.

Lemma length_factor_bounds doc : 0 <= length_factor doc <= 1.
Proof.
  unfold length_factor. split.
  - apply py_min_glb; [|lra].
    unfold float_of_int, slen.
    pose proof (count_nonneg (String.length (page_content doc))).
    apply Qle_shift_div_l; lra.
  - apply py_min_le_r.
Qed.

(** C6. The score given to a candidate chunk by the lexical reranker is
    0.8 times the Jaccard similarity of the case-folded word-token sets of
    the query and of the chunk content, plus 0.2 times
    [min(len(content)/100, 1)]; it lies between 0 and 1. *)
Theorem lexical_score_formula (query : string) (doc : Document) :
  final_score query doc
  == 0.8 * jaccard (word_tokens query) (word_tokens (page_content doc))
     + 0.2 * Qmin (inject_Z (slen (page_content doc)) / 100) 1
  /\ 0 <= final_score query doc <= 1.
Proof.
  pose proof (lexical_similarity_jaccard query (page_content doc)) as Hj.
  pose proof (jaccard_bounds (word_tokens query) (word_tokens (page_content doc))) as Hb.
  pose proof (length_factor_bounds doc) as Hl.
  assert (Hf : length_factor doc == Qmin (inject_Z (slen (page_content doc)) / 100) 1).
  { unfold length_factor. apply py_min_Qmin. }
  unfold final_score. rewrite Hj. rewrite <- Hf. 
  split; [ring|]. lra.
Qed.
End LexicalScore.

(** ** Reranking *)

Section Rerank.
Import Text Reranker Reference.
Local Open Scope Q_scope.

Lemma insert_desc_perm x l : insert_desc x l ≡ₚ x :: l.
Proof.
  induction l as [|y l IH]; simpl; [reflexivity|].
  destruct (Qlt_le_dec (snd x) (snd y)); [|reflexivity].
  rewrite IH. apply Permutation_swap.
Qed.

Lemma sort_desc_perm l : sort_desc l ≡ₚ l.
Proof.
  induction l as [|x l IH]; simpl; [reflexivity|].
  rewrite insert_desc_perm. now rewrite IH.
Qed.

Lemma insert_desc_sorted x l :
  StronglySorted score_ge l -> StronglySorted score_ge (insert_desc x l).
Proof.
  induction 1 as [|y l Hs IH Hall]; simpl.
  - constructor; constructor.
  - destruct (Qlt_le_dec (snd x) (snd y)) as [Hlt|Hle].
    + constructor; [exact IH|].
      rewrite Forall_forall. intros z Hz.
      rewrite insert_desc_perm in Hz. apply elem_of_cons in Hz as [->|Hz].
      * unfold score_ge. now apply Qlt_le_weak.
      * rewrite Forall_forall in Hall. now apply Hall.
    + constructor; [now constructor|].
      constructor; [exact Hle|].
      rewrite Forall_forall in Hall |- *. intros z Hz.
      unfold score_ge in *. specialize (Hall z Hz). lra.
Qed.

Lemma sort_desc_sorted l : StronglySorted score_ge (sort_desc l).
Proof.
  induction l as [|x l IH]; simpl; [constructor|].
  now apply insert_desc_sorted.
Qed.

Lemma strongly_sorted_lookup l :
  StronglySorted score_ge l -> sorted_desc l.
Proof.
  induction 1 as [|y l Hs IH Hall]; intros i j p q Hij Hi Hj.
  - now rewrite lookup_nil in Hi.
  - destruct j as [|j]; [lia|]. simpl in Hj.
    destruct i as [|i]; simpl in Hi.
    + injection Hi as <-. rewrite Forall_forall in Hall.
      apply Hall. eapply list_elem_of_lookup_2; eauto.
    + apply (IH i j); auto. lia.
Qed.

Lemma sorted_desc_take n l : sorted_desc l -> sorted_desc (take n l).
Proof.
  intros Hs i j p q Hij Hi Hj.
  apply lookup_take_Some in Hi as [Hi _].
  apply lookup_take_Some in Hj as [Hj _].
  eauto.
Qed.

(** Insertion never moves a pair over another of the same score. *)
Lemma insert_desc_stable s x l :
  with_score s (insert_desc x l) = with_score s (x :: l).
Proof.
  induction l as [|y l IH]; [reflexivity|].
  simpl insert_desc.
  destruct (Qlt_le_dec (snd x) (snd y)) as [Hlt|Hle]; [|reflexivity].
  unfold with_score in *. simpl in *. rewrite IH.
  destruct (Qeq_bool (snd x) s) eqn:Hx; [|reflexivity].
  destruct (Qeq_bool (snd y) s) eqn:Hy; [|reflexivity].
  apply Qeq_bool_iff in Hx, Hy. lra.
Qed.

Lemma sort_desc_stable s l : with_score s (sort_desc l) = with_score s l.
Proof.
  induction l as [|x l IH]; [reflexivity|].
  simpl sort_desc. rewrite insert_desc_stable.
  unfold with_score in *. simpl. now rewrite IH.
Qed.

Lemma slice_to_nonneg {A} k (l : list A) :
  (0 <= k)%Z -> slice_to k l = take (Z.to_nat k) l.
Proof. intros Hk. unfold slice_to. destruct (Z.ltb_spec k 0); [lia|reflexivity]. Qed.

Lemma slice_to_len {A} (l : list A) : slice_to (len l) l = l.
Proof.
  rewrite slice_to_nonneg by (unfold len; lia).
  unfold len. rewrite Nat2Z.id. apply firstn_all.
Qed.

Lemma len_sort_desc l : len (sort_desc l) = len l.
Proof. unfold len. f_equal. apply Permutation_length, sort_desc_perm. Qed.

(** C5. For every query, candidate list and [top_k >= 1], [simple_rerank]
    returns exactly [min(top_k, len(candidates))] (chunk, score) pairs in
    non-increasing order of score; they are the head of a rearrangement of
    all scored candidates that is itself in non-increasing order and in
    which the candidates of any one score keep their original order. *)
Theorem simple_rerank_top_k (query : string) (documents : list Document)
    (top_k : Z) :
  (1 <= top_k)%Z ->
  let scored := map (fun doc => (doc, final_score query doc)) documents in
  let result := simple_rerank query documents (Some top_k) in
  len result = Z.min top_k (len documents)
  /\ sorted_desc result
  /\ exists rest,
       result ++ rest ≡ₚ scored
       /\ sorted_desc (result ++ rest)
       /\ forall s, with_score s (result ++ rest) = with_score s scored.
Proof.
  intros Hk scored result.
  assert (Hres : result = take (Z.to_nat top_k) (sort_desc scored)).
  { unfold result, simple_rerank. simpl.
    destruct (Z.eqb_spec top_k 0); [lia|].
    now rewrite slice_to_nonneg by lia. }
  assert (Hsorted : sorted_desc (sort_desc scored))
    by apply strongly_sorted_lookup, sort_desc_sorted.
  split; [|split].
  - rewrite Hres. unfold len. rewrite length_take.
    pose proof (Permutation_length (sort_desc_perm scored)) as Hl.
    rewrite Hl. unfold scored. rewrite length_map. lia.
  - rewrite Hres. now apply sorted_desc_take.
  - exists (drop (Z.to_nat top_k) (sort_desc scored)).
    rewrite Hres, take_drop. split; [apply sort_desc_perm|].
    split; [exact Hsorted|]. intros s. apply sort_desc_stable.
Qed.

Lemma simple_rerank_top_k_witness :
  let result := simple_rerank "What is RAG?" Demo.store3 (Some 2%Z) in
  len result = 2%Z /\ sorted_desc result.
Proof.
  destruct (simple_rerank_top_k "What is RAG?" Demo.store3 2%Z ltac:(lia))
    as (Hlen & Hsorted & _).
  split; [exact Hlen | exact Hsorted].
Defined.

(** With [top_k = 0] the whole candidate list comes back, not
    [min(0, len(candidates)) = 0] pairs. *)
Lemma simple_rerank_zero_not_min :
  ~ (forall (query : string) (documents : list Document) (top_k : Z),
        len (simple_rerank query documents (Some top_k))
        = Z.min top_k (len documents)).
Proof.
  intros Hall. specialize (Hall "What is RAG?"%string [Demo.rag] 0%Z).
  vm_compute in Hall. discriminate Hall.
Qed.
End Rerank.

(** ** A zero [k] *)

Section ZeroK.
Import Text VectorStore HyDE Reranker Reference.
Context {RT : Runtime}.

Lemma or_default_zero d : or_default (Some 0) d = d.
Proof. reflexivity. Qed.

Lemma or_default_nonzero k d : k <> 0 -> or_default (Some k) d = k.
Proof. intros Hk. unfold or_default. destruct (Z.eqb_spec k 0); congruence. Qed.

Lemma or_default_same d : or_default (Some d) d = d.
Proof. unfold or_default. now destruct (d =? 0). Qed.

Lemma or_default_twice k d :
  or_default (Some (or_default k d)) d = or_default k d.
Proof.
  destruct k as [z|]; simpl; [|apply or_default_same].
  destruct (Z.eqb_spec z 0) as [->|Hz]; [apply or_default_same|].
  now apply or_default_nonzero.
Qed.

Lemma or_default_double k d :
  or_default (Some (or_default k d * 2)) d = or_default k d * 2.
Proof.
  destruct (Z.eq_dec (or_default k d) 0) as [Hzero|Hnz].
  - rewrite Hzero. simpl.
    destruct k as [z|]; simpl in Hzero; [|exact Hzero].
    destruct (Z.eqb_spec z 0) as [->|Hz]; [exact Hzero|contradiction].
  - apply or_default_nonzero. lia.
Qed.
End ZeroK.

(** ** The choice of the method *)

Section Dispatch.
Import App Reference.

(** The chain agrees with the dispatch table where the table is defined
    and takes its final [else] elsewhere. *)
Lemma select_defaults_to_enhanced (mode : string) :
  select "basic" = Basic
  /\ select "hyde" = Hyde
  /\ select "rerank" = Rerank
  /\ select "enhanced" = Enhanced
  /\ select mode = default Enhanced (dispatch_table mode).
Proof.
  repeat (split; [reflexivity|]).
  unfold select, dispatch_table.
  destruct (String.eqb mode "basic"); [reflexivity|].
  destruct (String.eqb mode "hyde"); [reflexivity|].
  destruct (String.eqb mode "rerank"); [reflexivity|].
  now destruct (String.eqb mode "enhanced").
Qed.

End Dispatch.


(** ** The confidence score *)

Section Confidence.
Import Text Chain Reference.
Local Open Scope Q_scope.

Lemma truediv_ok a b : ~ b == 0 -> truediv a b = Ok (a / b).
Proof.
  intros Hb. unfold truediv.
  destruct (Qeq_bool b 0) eqn:E; [|reflexivity].
  apply Qeq_bool_iff in E. contradiction.
Qed.

Lemma truediv_zero a : truediv a (float_of_int 0) = Raise ZeroDivisionError.
Proof. reflexivity. Qed.

Lemma float_of_int_nonzero z : z <> 0%Z -> ~ float_of_int z == 0.
Proof.
  intros Hz E. apply Hz. unfold float_of_int, Qeq in E. simpl in E. lia.
Qed.

(** *** The keyword part *)

Lemma split_set_tokens question :
  split_set question = list_to_set (question_tokens question).
Proof.
  unfold split_set, question_tokens. apply set_eq. intros w.
  rewrite !elem_of_list_to_set. now rewrite elem_of_remove_dups.
Qed.

Lemma elements_split_set question :
  elements (split_set question) ≡ₚ question_tokens question.
Proof.
  rewrite split_set_tokens. apply elements_list_to_set, NoDup_remove_dups.
Qed.

Lemma size_split_set question :
  size (split_set question) = length (question_tokens question).
Proof.
  rewrite split_set_tokens. apply size_list_to_set, NoDup_remove_dups.
Qed.

Local Abbreviation hit answer :=
  (fun w : string => long_token w && appears_in answer w = true).

Lemma keyword_loop answer (words : list string) (count : Z) :
  fold_left (keyword_step answer) words count
  = (count + len (filter (hit answer) words))%Z.
Proof.
  revert count. induction words as [|w words IH]; intros count; simpl.
  - unfold len. simpl. lia.
  - rewrite IH, filter_cons. unfold keyword_step, long_token, appears_in.
    destruct ((2 <? slen w)%Z && contains w (lower answer)) eqn:E.
    + rewrite decide_True by reflexivity. unfold len. simpl. lia.
    + rewrite decide_False by discriminate. reflexivity.
Qed.

Lemma keyword_count_tokens question answer :
  keyword_count (split_set question) answer
  = len (filter (hit answer) (question_tokens question)).
Proof.
  unfold keyword_count. rewrite keyword_loop.
  unfold len. now rewrite (elements_split_set question).
Qed.

(** The keyword part never raises: its divisor is at least 1. *)
Lemma keyword_score_ok question answer :
  exists k, keyword_score question answer = Ok k.
Proof.
  unfold keyword_score.
  rewrite truediv_ok by (apply float_of_int_nonzero; lia).
  simpl. eauto.
Qed.

(** C4. The keyword component of the confidence is the number of distinct
    case-folded whitespace-separated question tokens that are longer than
    2 characters and occur in the case-folded answer, divided by the number
    of all distinct question tokens (at least 1), times 0.1; it lies
    between 0 and 0.1. *)
Theorem keyword_score_fraction (question answer : string) :
  exists k, keyword_score question answer = Ok k
            /\ k == keyword_fraction_of_all_tokens question answer
            /\ 0 <= k <= 0.1.
Proof.
  unfold keyword_score.
  rewrite keyword_count_tokens, size_split_set.
  set (all := question_tokens question).
  set (found := filter (hit answer) all).
  assert (Hle : (length found <= length all)%nat) by apply length_filter.
  assert (Hmax : (1 <= Z.max (Z.of_nat (length all)) 1)%Z) by lia.
  rewrite truediv_ok by (apply float_of_int_nonzero; lia).
  simpl rbind.
  set (ratio := float_of_int (len found)
                / float_of_int (Z.max (Z.of_nat (length all)) 1)).
  assert (Hratio : 0 <= ratio <= 1).
  { unfold ratio, float_of_int, len.
    assert (Hpos : 0 < inject_Z (Z.max (Z.of_nat (length all)) 1)).
    { change 0 with (inject_Z 0). rewrite <- Zlt_Qlt. lia. }
    split.
    - apply Qle_shift_div_l; [exact Hpos|]. rewrite Qmult_0_l.
      apply count_nonneg.
    - apply Qle_shift_div_r; [exact Hpos|]. rewrite Qmult_1_l.
      rewrite <- Zle_Qle. lia. }
  exists (py_min ratio 1 * 0.1). split; [reflexivity|].
  assert (Hmin : py_min ratio 1 = ratio).
  { unfold py_min. destruct (Qlt_le_dec 1 ratio); [lra|reflexivity]. }
  rewrite Hmin. split; [|lra].
  unfold keyword_fraction_of_all_tokens, ratio, float_of_int, len.
  fold all. reflexivity.
Qed.

(** The population of the fraction is every distinct question token, not
    only those longer than 2 characters: for the question "is rag" and the
    answer "rag" the component is 0.05, not 0.1. *)
Lemma keyword_score_not_over_long_tokens :
  ~ (forall question answer : string,
        exists k, keyword_score question answer = Ok k
                  /\ k == keyword_fraction_of_long_tokens question answer).
Proof.
  intros Hall. destruct (Hall "is rag"%string "rag"%string) as (k & Hk & Heq).
  vm_compute in Hk. injection Hk as <-.
  vm_compute in Heq. discriminate Heq.
Qed.

(** *** The method bonus *)

(** The method tag [hyde+rerank], under which [ask_enhanced] asks for the
    confidence, gets no bonus. *)
Lemma method_bonus_enhanced_is_zero :
  ~ (forall retrieval_method : string,
        method_bonus retrieval_method
        == method_bonus_if_hyde_used retrieval_method).
Proof.
  intros Hall. specialize (Hall "hyde+rerank"%string).
  vm_compute in Hall. discriminate Hall.
Qed.
End Confidence.

Section ConfidenceRange.
Import Text Chain Reference.
Context {RT : Runtime}.
Local Open Scope Q_scope.

Lemma clamp_range total : 0.1 <= clamp total <= 0.95.
Proof.
  unfold clamp. split.
  - apply py_min_glb; [apply py_max_ge_r | lra].
  - apply py_min_le_r.
Qed.

Lemma doc_score_ok source_docs :
  TOP_K settings <> 0%Z -> exists d, doc_score source_docs = Ok d.
Proof.
  intros Hk. unfold doc_score.
  rewrite truediv_ok by now apply float_of_int_nonzero.
  simpl. eauto.
Qed.

Lemma relevance_score_ok source_docs question :
  exists r, relevance_score source_docs question = Ok r.
Proof.
  unfold relevance_score. destruct source_docs as [|doc rest]; [eauto|].
  rewrite truediv_ok.
  - simpl. eauto.
  - apply float_of_int_nonzero. unfold len. simpl length. lia.
Qed.

(** The confidence of a non-empty retrieval is the clamped sum of its five
    parts. *)
Lemma confidence_sum source_docs question answer retrieval_method d r k :
  source_docs <> [] ->
  doc_score source_docs = Ok d ->
  relevance_score source_docs question = Ok r ->
  keyword_score question answer = Ok k ->
  calculate_enhanced_confidence source_docs question answer retrieval_method
  = Ok (clamp (d + r + answer_length_score answer + k
               + method_bonus retrieval_method)).
Proof.
  intros Hne Hd Hr Hk. unfold calculate_enhanced_confidence.
  destruct source_docs as [|doc rest]; [contradiction|].
  rewrite Hd, Hr, Hk. unfold clamp. cbn [rbind]. reflexivity.
Qed.

(** C2. In the confidence of a non-empty retrieval the method bonus is the
    last of the five summands; it is 0.1 exactly when the method tag is
    [hyde], and 0 for every other tag, [hyde+rerank] included. *)
Theorem method_bonus_only_for_hyde (source_docs : list Document)
    (question answer retrieval_method : string) (d r k : Q) :
  source_docs <> [] ->
  doc_score source_docs = Ok d ->
  relevance_score source_docs question = Ok r ->
  keyword_score question answer = Ok k ->
  calculate_enhanced_confidence source_docs question answer retrieval_method
  = Ok (clamp (d + r + answer_length_score answer + k
               + method_bonus retrieval_method))
  /\ (retrieval_method = "hyde"%string -> method_bonus retrieval_method == 0.1)
  /\ (retrieval_method <> "hyde"%string -> method_bonus retrieval_method == 0)
  /\ method_bonus "hyde+rerank" == 0.
Proof.
  intros Hne Hd Hr Hk. split; [now apply confidence_sum|].
  unfold method_bonus. repeat split.
  - intros ->. reflexivity.
  - intros Hm. destruct (String.eqb_spec retrieval_method "hyde");
      [contradiction|reflexivity].
Qed.

(** C7. The confidence is exactly 0.1 when no document was retrieved;
    for a non-empty retrieval (and a non-zero [TOP_K], by which the
    document count is divided) it is computed without error and lies in
    [0.1, 0.95]. *)
Theorem confidence_range (source_docs : list Document)
    (question answer retrieval_method : string) :
  calculate_enhanced_confidence [] question answer retrieval_method = Ok 0.1
  /\ (source_docs <> [] -> TOP_K settings <> 0%Z ->
      exists c,
        calculate_enhanced_confidence source_docs question answer
          retrieval_method = Ok c
        /\ 0.1 <= c <= 0.95).
Proof.
  split; [reflexivity|]. intros Hne Hk.
  destruct (doc_score_ok source_docs Hk) as [d Hd].
  destruct (relevance_score_ok source_docs question) as [r Hr].
  destruct (keyword_score_ok question answer) as [k Hkw].
  eexists. split.
  - apply confidence_sum; eassumption.
  - apply clamp_range.
Qed.

(** With [TOP_K = 0] the first division of a non-empty retrieval raises. *)
Remark confidence_top_k_zero source_docs question answer retrieval_method :
  source_docs <> [] -> TOP_K settings = 0%Z ->
  calculate_enhanced_confidence source_docs question answer retrieval_method
  = Raise ZeroDivisionError.
Proof.
  intros Hne Hk. unfold calculate_enhanced_confidence, doc_score.
  destruct source_docs as [|doc rest]; [contradiction|].
  now rewrite Hk.
Qed.
End ConfidenceRange.

Lemma method_bonus_only_for_hyde_witness :
  let R := Demo.runtime Demo.store3 true true 5 in
  Chain.calculate_enhanced_confidence Demo.store3 "What is RAG?"
    "RAG combines retrieval and generation" "hyde+rerank"
  = Chain.calculate_enhanced_confidence Demo.store3 "What is RAG?"
      "RAG combines retrieval and generation" "basic".
Proof.
  intros R.
  destruct (doc_score_ok (RT := R) Demo.store3 ltac:(discriminate)) as [d Hd].
  destruct (relevance_score_ok Demo.store3 "What is RAG?") as [r Hr].
  destruct (keyword_score_ok "What is RAG?"
              "RAG combines retrieval and generation") as [k Hk].
  destruct (method_bonus_only_for_hyde (RT := R) Demo.store3 "What is RAG?"
              "RAG combines retrieval and generation" "hyde+rerank" d r k
              ltac:(discriminate) Hd Hr Hk) as (-> & _).
  destruct (method_bonus_only_for_hyde (RT := R) Demo.store3 "What is RAG?"
              "RAG combines retrieval and generation" "basic" d r k
              ltac:(discriminate) Hd Hr Hk) as (-> & _).
  reflexivity.
Defined.

Lemma confidence_range_witness :
  let R := Demo.runtime Demo.store3 true true 5 in
  exists c,
    Chain.calculate_enhanced_confidence Demo.store3 "What is RAG?"
      "RAG combines retrieval and generation" "hyde" = Ok c
    /\ (0.1 <= c <= 0.95)%Q.
Proof.
  intros R.
  apply (confidence_range (RT := R) Demo.store3 "What is RAG?"
           "RAG combines retrieval and generation" "hyde");
    discriminate.
Defined.

(** ** HyDE retrieval *)

Section Merge.
Import Text VectorStore HyDE Reference.
Context {RT : Runtime}.

Lemma slice_to_length {A} k (l : list A) :
  0 <= k -> len (slice_to k l) <= k.
Proof.
  intros Hk. rewrite slice_to_nonneg by exact Hk.
  unfold len. rewrite length_take. lia.
Qed.

Lemma slice_to_short {A} k (l : list A) :
  0 <= k -> len l <= k -> slice_to k l = l.
Proof.
  intros Hk Hl. rewrite slice_to_nonneg by exact Hk.
  apply take_ge. unfold len in Hl. lia.
Qed.

(** What the loop keeps: it only appends, never more than [k] chunks,
    never a hash twice, and in the order of the input. *)
Lemma merge_unique_invariant k all unique seen :
  len unique < k ->
  (forall h, h ∈ seen <-> h ∈ map content_hash unique) ->
  NoDup (map content_hash unique) ->
  exists extra,
    merge_unique k all unique seen = unique ++ extra
    /\ len (unique ++ extra) <= k
    /\ NoDup (map content_hash (unique ++ extra))
    /\ sublist extra all.
Proof.
  revert unique seen.
  induction all as [|doc rest IH]; intros unique seen Hlen Hseen Hnd; simpl.
  - exists []. rewrite app_nil_r.
    split; [reflexivity|]. split; [lia|]. split; [exact Hnd|constructor].
  - fold (content_hash doc).
    destruct (decide (content_hash doc ∈ seen)) as [Hin|Hnin].
    + rewrite (bool_decide_eq_true_2 _ Hin).
      destruct (IH unique seen Hlen Hseen Hnd) as (extra & -> & ? & ? & ?).
      exists extra. split; [reflexivity|]. split; [assumption|].
      split; [assumption|]. now apply sublist_cons.
    + rewrite (bool_decide_eq_false_2 _ Hnin).
      assert (Hnd' : NoDup (map content_hash (unique ++ [doc]))).
      { rewrite map_app. simpl. apply NoDup_app. repeat split; auto.
        - intros h Hh Hd. apply list_elem_of_singleton in Hd as ->.
          apply Hnin, Hseen, Hh.
        - apply NoDup_singleton. }
      assert (Hlen' : len (unique ++ [doc]) = len unique + 1).
      { unfold len. rewrite length_app. simpl. lia. }
      destruct (Z.geb_spec (len (unique ++ [doc])) k) as [Hge|Hlt].
      * exists [doc]. split; [reflexivity|]. split; [lia|].
        split; [exact Hnd'|]. apply sublist_skip, sublist_nil_l.
      * destruct (IH (unique ++ [doc]) ({[content_hash doc]} ∪ seen))
          as (extra & -> & ? & ? & ?); auto.
        { intros h. rewrite elem_of_union, elem_of_singleton, Hseen, map_app.
          rewrite elem_of_app. simpl. rewrite list_elem_of_singleton. tauto. }
        exists (doc :: extra). rewrite <- !app_assoc in *. simpl in *.
        split; [reflexivity|]. split; [assumption|].
        split; [assumption|]. now apply sublist_skip.
Qed.

Lemma first_seen_ext seen1 seen2 docs :
  (forall c, c ∈ seen1 <-> c ∈ seen2) ->
  first_seen seen1 docs = first_seen seen2 docs.
Proof.
  revert seen1 seen2.
  induction docs as [|doc rest IH]; intros seen1 seen2 Heq; simpl; [reflexivity|].
  destruct (decide (page_content doc ∈ seen1)) as [Hin|Hnin].
  - rewrite (bool_decide_eq_true_2 _ Hin).
    rewrite bool_decide_eq_true_2 by now apply Heq.
    now apply IH.
  - rewrite (bool_decide_eq_false_2 _ Hnin).
    rewrite bool_decide_eq_false_2 by (intros Hc; now apply Hnin, Heq).
    f_equal. apply IH. intros c. rewrite !elem_of_cons, Heq. tauto.
Qed.

(** With a hash that separates the contents at hand, the loop is
    deduplication by content, cut after [k] chunks. *)
Lemma merge_unique_first_seen k all unique seen :
  len unique < k ->
  (forall h, h ∈ seen <-> h ∈ map content_hash unique) ->
  hash_separates (unique ++ all) ->
  merge_unique k all unique seen
  = unique ++ take (Z.to_nat (k - len unique))
                (first_seen (map page_content unique) all).
Proof.
  revert unique seen.
  induction all as [|doc rest IH]; intros unique seen Hlen Hseen Hsep; simpl.
  - now rewrite take_nil, app_nil_r.
  - fold (content_hash doc).
    assert (Hiff : content_hash doc ∈ seen
                   <-> page_content doc ∈ map page_content unique).
    { rewrite Hseen. split; intros Hin.
      - apply list_elem_of_fmap in Hin as (u & Hu & Hin).
        apply list_elem_of_fmap. exists u. split; [|exact Hin].
        apply Hsep; [set_solver|set_solver|exact Hu].
      - apply list_elem_of_fmap in Hin as (u & Hu & Hin).
        apply list_elem_of_fmap. exists u. split; [|exact Hin].
        unfold content_hash. now rewrite Hu. }
    destruct (decide (content_hash doc ∈ seen)) as [Hin|Hnin].
    + rewrite (bool_decide_eq_true_2 _ Hin).
      rewrite bool_decide_eq_true_2 by now apply Hiff.
      apply IH; auto.
      intros a b Ha Hb. apply Hsep; set_solver.
    + rewrite (bool_decide_eq_false_2 _ Hnin).
      rewrite bool_decide_eq_false_2 by (intros Hc; now apply Hnin, Hiff).
      assert (Hlen' : len (unique ++ [doc]) = len unique + 1).
      { unfold len. rewrite length_app. simpl. lia. }
      replace (Z.to_nat (k - len unique))
        with (S (Z.to_nat (k - len (unique ++ [doc])))) by lia.
      simpl take.
      destruct (Z.geb_spec (len (unique ++ [doc])) k) as [Hge|Hlt].
      * replace (Z.to_nat (k - len (unique ++ [doc]))) with 0%nat by lia.
        now rewrite take_0.
      * rewrite (IH (unique ++ [doc]) ({[content_hash doc]} ∪ seen)); auto.
        -- rewrite <- app_assoc. simpl. do 3 f_equal.
           apply first_seen_ext. intros c.
           rewrite map_app. simpl.
           rewrite elem_of_app, list_elem_of_singleton, elem_of_cons. tauto.
        -- intros h. rewrite elem_of_union, elem_of_singleton, Hseen, map_app.
           rewrite elem_of_app. simpl. rewrite list_elem_of_singleton. tauto.
        -- intros a b Ha Hb. apply Hsep.
           ++ rewrite <- app_assoc in Ha. exact Ha.
           ++ rewrite <- app_assoc in Hb. exact Hb.
Qed.
End Merge.

Section HydeRetrieve.
Import Text VectorStore HyDE Reference.
Context {RT : Runtime}.

(** The hypothetical answer is always produced: a failed generation gives
    the question back. *)
Lemma generate_hypothetical_answer_total question w :
  exists hyp w', generate_hypothetical_answer question w = (Ok hyp, w').
Proof.
  unfold generate_hypothetical_answer.
  destruct (chat_completions_create _ _ _ _ w) as [[response|e] w']; eauto.
Qed.

(** C8. For every question and [k >= 1]: once the hypothetical answer is
    there and the store has answered the query for it (asked for [2k]
    chunks) and the query for the question (asked for [k]),
    [hyde_retrieve] returns chunks of the concatenation, hypothetical-answer
    results first, in their order; at most [k] of them; no two with the
    same content.  When the hash keeps the contents at hand apart, they are
    the first [k] chunks of the concatenation deduplicated by exact content
    in first-seen order. *)
Theorem hyde_retrieve_merges (question : string) (k : Z) (w w1 w2 w3 : World)
    (hypothetical_answer : string) (hyde_results question_results : list Document) :
  1 <= k ->
  generate_hypothetical_answer question w = (Ok hypothetical_answer, w1) ->
  chroma_similarity_search hypothetical_answer (k * 2) w1 = (Ok hyde_results, w2) ->
  chroma_similarity_search question k w2 = (Ok question_results, w3) ->
  exists docs,
    hyde_retrieve question (Some k) w = (Ok docs, w3)
    /\ len docs <= k
    /\ NoDup (map page_content docs)
    /\ sublist docs (hyde_results ++ question_results)
    /\ (hash_separates (hyde_results ++ question_results) ->
        docs = take (Z.to_nat k)
                 (first_seen [] (hyde_results ++ question_results))).
Proof.
  intros Hk Hgen Hhyde Hquestion.
  set (all_results := hyde_results ++ question_results).
  exists (slice_to k (merge_unique k all_results [] ∅)).
  assert (Hrun : hyde_retrieve question (Some k) w
                 = (Ok (slice_to k (merge_unique k all_results [] ∅)), w3)).
  { unfold hyde_retrieve, similarity_search, bind, ret.
    rewrite (or_default_nonzero k) by lia.
    rewrite (or_default_nonzero (k * 2)) by lia.
    rewrite (or_default_nonzero k) by lia.
    now rewrite Hgen, Hhyde, Hquestion. }
  destruct (merge_unique_invariant k all_results [] ∅) as (extra & Hm & Hl & Hnd & Hsub).
  { unfold len. simpl. lia. }
  { intros h. simpl. rewrite elem_of_nil. set_solver. }
  { constructor. }
  simpl in Hm, Hl, Hnd. rewrite Hm.
  rewrite slice_to_short by lia.
  split; [now rewrite Hrun, Hm, slice_to_short by lia|].
  split; [exact Hl|]. split; [|split; [exact Hsub|]].
  - apply (NoDup_fmap_1 hash).
    replace (hash <$> map page_content extra) with (map content_hash extra);
      [exact Hnd|].
    clear. induction extra as [|doc extra IH]; [reflexivity|].
    simpl. rewrite IH. reflexivity.
  - intros Hsep. rewrite <- Hm.
    rewrite (merge_unique_first_seen k all_results [] ∅).
    + simpl. unfold len. simpl. now rewrite Z.sub_0_r.
    + unfold len. simpl. lia.
    + intros h. simpl. rewrite elem_of_nil. set_solver.
    + exact Hsep.
Qed.
End HydeRetrieve.

Lemma hyde_retrieve_merges_witness :
  let R := Demo.runtime Demo.store3 true true 5 in
  exists docs,
    HyDE.hyde_retrieve (RT := R) "What is RAG?" (Some 2) 0%nat = (Ok docs, 0%nat)
    /\ len docs <= 2
    /\ NoDup (map page_content docs).
Proof.
  intros R.
  destruct (hyde_retrieve_merges (RT := R) "What is RAG?" 2 0%nat 0%nat 0%nat 0%nat
              "RAG combines retrieval and generation"
              Demo.store3 [Demo.rag; Demo.hyde]
              ltac:(lia) eq_refl eq_refl eq_refl)
    as (docs & Hrun & Hlen & Hnd & _).
  exists docs. split; [exact Hrun|]. split; [exact Hlen|exact Hnd].
Defined.

(** With [k = 0] the retrieval works with [TOP_K] instead and returns
    chunks, more than [k] of them. *)
Lemma hyde_retrieve_zero_not_bounded :
  ~ (forall (RT : Runtime) (question : string) (k : Z) (w w' : World)
            (docs : list Document),
        HyDE.hyde_retrieve question (Some k) w = (Ok docs, w') ->
        len docs <= k).
Proof.
  intros Hall.
  specialize (Hall (Demo.runtime Demo.store3 true true 5) "What is RAG?"%string
                0 0%nat 0%nat [Demo.rag; Demo.hyde; Demo.rank]).
  assert (Hrun : HyDE.hyde_retrieve (RT := Demo.runtime Demo.store3 true true 5)
                   "What is RAG?" (Some 0) 0%nat
                 = (Ok [Demo.rag; Demo.hyde; Demo.rank], 0%nat))
    by (vm_compute; reflexivity).
  specialize (Hall Hrun). vm_compute in Hall. apply Hall. reflexivity.
Qed.

(** ** A zero [k], continued *)

Section ZeroKDefault.
Import Text VectorStore HyDE Reranker Reference.
Context {RT : Runtime}.

(** The first chunk the store returns is the first chunk of the merge. *)
Lemma merge_unique_head k doc rest :
  1 <= k ->
  exists extra, merge_unique k (doc :: rest) [] ∅ = doc :: extra
                /\ len (doc :: extra) <= k.
Proof.
  intros Hk. simpl.
  rewrite bool_decide_eq_false_2 by apply not_elem_of_empty.
  destruct (Z.geb_spec (len [doc]) k) as [Hge|Hlt].
  - exists []. split; [reflexivity|]. unfold len in *. simpl in *. lia.
  - destruct (merge_unique_invariant k rest [doc]
                ({[hash (page_content doc)]} ∪ ∅))
      as (extra & -> & Hlen & _).
    + exact Hlt.
    + intros h. simpl. rewrite list_elem_of_singleton. unfold content_hash.
      set_solver.
    + simpl. apply NoDup_singleton.
    + exists extra. split; [reflexivity|exact Hlen].
Qed.

(** C10. A [k] of 0 (or [None]) is replaced by a default rather than
    giving an empty result.  [similarity_search] then asks the store for
    [settings.TOP_K] chunks and returns what the store returns;
    [hyde_retrieve] asks the store for [2 * TOP_K] chunks for the
    hypothetical answer and for [TOP_K] for the question, and (for
    [TOP_K >= 1]) its result begins with the first chunk the store returned;
    both are what the call with [k = TOP_K] does.  [simple_rerank] works as
    with [top_k = len(documents)], so that every candidate is returned. *)
Theorem zero_k_is_default (query : string) (documents : list Document) :
  similarity_search query (Some 0)
  = chroma_similarity_search query (TOP_K settings)
  /\ similarity_search query None
     = chroma_similarity_search query (TOP_K settings)
  /\ similarity_search query (Some (TOP_K settings))
     = chroma_similarity_search query (TOP_K settings)
  /\ hyde_retrieve query (Some 0) = hyde_retrieve_with query (TOP_K settings)
  /\ hyde_retrieve query None = hyde_retrieve_with query (TOP_K settings)
  /\ hyde_retrieve query (Some (TOP_K settings))
     = hyde_retrieve_with query (TOP_K settings)
  /\ (forall w hypothetical_answer w1 hyde_results w2 question_results w3 doc rest,
        1 <= TOP_K settings ->
        generate_hypothetical_answer query w = (Ok hypothetical_answer, w1) ->
        chroma_similarity_search hypothetical_answer (TOP_K settings * 2) w1
        = (Ok hyde_results, w2) ->
        chroma_similarity_search query (TOP_K settings) w2
        = (Ok question_results, w3) ->
        hyde_results ++ question_results = doc :: rest ->
        exists docs, hyde_retrieve query (Some 0) w = (Ok (doc :: docs), w3))
  /\ simple_rerank query documents (Some 0)
     = simple_rerank query documents (Some (len documents))
  /\ simple_rerank query documents None
     = simple_rerank query documents (Some (len documents))
  /\ len (simple_rerank query documents (Some 0)) = len documents
  /\ map fst (simple_rerank query documents (Some 0)) ≡ₚ documents.
Proof.
  assert (Hall : simple_rerank query documents (Some 0)
                 = sort_desc (map (fun doc => (doc, final_score query doc)) documents)).
  { unfold simple_rerank. rewrite or_default_zero.
    set (scored := map _ documents).
    replace (len documents) with (len (sort_desc scored)).
    - apply slice_to_len.
    - rewrite len_sort_desc. unfold scored, len. now rewrite length_map. }
  assert (Hzero : hyde_retrieve query (Some 0)
                  = hyde_retrieve_with query (TOP_K settings)).
  { unfold hyde_retrieve, hyde_retrieve_with, similarity_search.
    rewrite (or_default_double (Some 0)), (or_default_twice (Some 0)).
    now rewrite or_default_zero. }
  split; [unfold similarity_search; now rewrite or_default_zero|].
  split; [reflexivity|].
  split; [unfold similarity_search; now rewrite or_default_same|].
  split; [exact Hzero|].
  split.
  { unfold hyde_retrieve, hyde_retrieve_with, similarity_search.
    now rewrite (or_default_double None), (or_default_twice None). }
  split.
  { unfold hyde_retrieve, hyde_retrieve_with, similarity_search.
    rewrite (or_default_double (Some (TOP_K settings))).
    rewrite (or_default_twice (Some (TOP_K settings))).
    now rewrite or_default_same. }
  split.
  { intros w hyp w1 hs w2 qs w3 doc rest Hk Hgen Hhyde Hquestion Hfirst.
    rewrite Hzero. unfold hyde_retrieve_with, bind, ret.
    rewrite Hgen, Hhyde, Hquestion, Hfirst.
    destruct (merge_unique_head (TOP_K settings) doc rest Hk)
      as (extra & -> & Hlen).
    rewrite slice_to_short by lia. eauto. }
  split; [unfold simple_rerank; now rewrite or_default_zero, or_default_same|].
  split; [unfold simple_rerank; now rewrite or_default_same|].
  split; [rewrite Hall, len_sort_desc; unfold len; now rewrite length_map|].
  rewrite Hall, sort_desc_perm, map_map. simpl. now rewrite map_id.
Qed.
End ZeroKDefault.

Lemma zero_k_is_default_witness :
  let R := Demo.runtime Demo.store3 true true 5 in
  1 <= TOP_K (settings (Runtime := R))
  /\ exists docs,
       HyDE.hyde_retrieve (RT := R) "What is RAG?" (Some 0) 0%nat
       = (Ok (Demo.rag :: docs), 0%nat).
Proof.
  intros R.
  assert (Hk : 1 <= TOP_K (settings (Runtime := R))) by (simpl; lia).
  split; [exact Hk|].
  destruct (zero_k_is_default (RT := R) "What is RAG?" [])
    as (_ & _ & _ & _ & _ & _ & Hfirst & _).
  exact (Hfirst 0%nat "RAG combines retrieval and generation" 0%nat
           Demo.store3 0%nat Demo.store3 0%nat Demo.rag
           ([Demo.hyde; Demo.rag; Demo.rank] ++ Demo.store3)
           Hk eq_refl eq_refl eq_refl eq_refl).
Defined.

(** ** The four methods *)

Section Ask.
Import Text VectorStore HyDE Reranker Chain App Reference.
Context {RT : Runtime}.

Lemma bind_ok {A B} (m : M A) (f : A -> M B) w b w' :
  bind m f w = (Ok b, w') ->
  exists a w1, m w = (Ok a, w1) /\ f a w1 = (Ok b, w').
Proof.
  unfold bind. destruct (m w) as [[a|e] w1]; [eauto|discriminate].
Qed.

Lemma total_ok {A} (f : World -> A * World) w a w' :
  total f w = (Ok a, w') -> f w = (a, w').
Proof. unfold total. destruct (f w). congruence. Qed.

Lemma lift_ok {A} (r : result A) w a w' :
  lift r w = (Ok a, w') -> r = Ok a /\ w' = w.
Proof. unfold lift. intros E. split; congruence. Qed.

Lemma ret_ok {A} (x a : A) w w' : ret x w = (Ok a, w') -> a = x /\ w' = w.
Proof. unfold ret. intros E. split; congruence. Qed.

Ltac invert_block Hrun :=
  repeat (apply bind_ok in Hrun as (? & ? & ? & Hrun));
  apply ret_ok in Hrun as [-> ->].

(** A method either returns what its [try] block returns, or the error
    dictionary built by the handler. *)
Lemma run_cases b question w :
  let start_time := fst (time_time w) in
  let w0 := snd (time_time w) in
  (exists r w1, try_block b question start_time w0 = (Ok r, w1)
                /\ run b question w = (r, w1))
  \/ (exists e w1, try_block b question start_time w0 = (Raise e, w1)
                   /\ run b question w
                      = error_result question (method_tag b) start_time e w1).
Proof.
  intros start_time w0. subst start_time w0.
  destruct b; simpl;
    unfold ask_basic, ask_hyde, ask_rerank, ask_enhanced, try_except;
    destruct (time_time w) as [start_time w0]; simpl;
    match goal with
    | |- context [?blk question start_time w0] =>
        destruct (blk question start_time w0) as [[r|e] w1]; eauto
    end.
Qed.

Lemma hyde_retrieve_length question k w docs w' :
  1 <= k ->
  hyde_retrieve question (Some k) w = (Ok docs, w') -> len docs <= k.
Proof.
  intros Hk Hrun. unfold hyde_retrieve in Hrun.
  rewrite (or_default_nonzero k) in Hrun by lia.
  invert_block Hrun. apply slice_to_length. lia.
Qed.

Lemma simple_rerank_length query documents top_k :
  1 <= top_k -> len (simple_rerank query documents (Some top_k)) <= top_k.
Proof.
  intros Hk. unfold simple_rerank.
  rewrite or_default_nonzero by lia. apply slice_to_length. lia.
Qed.

Lemma len_imap {A B} (f : nat -> A -> B) (l : list A) : len (imap f l) = len l.
Proof. unfold len. now rewrite length_imap. Qed.

Lemma len_map {A B} (f : A -> B) (l : list A) : len (map f l) = len l.
Proof. unfold len. now rewrite length_map. Qed.

Lemma len_nonneg {A} (l : list A) : 0 <= len l.
Proof. unfold len. lia. Qed.

(** What a successful [try] block returns. *)
Lemma try_block_counts b question start_time w0 r w1 :
  1 <= TOP_K settings ->
  store_returns_at_most_k ->
  try_block b question start_time w0 = (Ok r, w1) ->
  len (citations r) = source_count r
  /\ 0 <= source_count r <= TOP_K settings.
Proof.
  intros Hk Hstore Hrun. destruct b; simpl in Hrun.
  - unfold ask_basic_try in Hrun. invert_block Hrun. simpl.
    rewrite len_imap. split; [reflexivity|]. split; [apply len_nonneg|].
    match goal with
    | Hs : similarity_search _ _ _ = _ |- _ =>
        unfold similarity_search in Hs;
        rewrite or_default_same in Hs; now apply Hstore in Hs
    end.
  - unfold ask_hyde_try in Hrun. invert_block Hrun. simpl.
    rewrite len_imap. split; [reflexivity|]. split; [apply len_nonneg|].
    match goal with
    | Hs : hyde_retrieve _ _ _ = _ |- _ =>
        now apply hyde_retrieve_length in Hs
    end.
  - unfold ask_rerank_try in Hrun. invert_block Hrun. simpl.
    rewrite len_imap, len_map. split; [reflexivity|].
    split; [apply len_nonneg|]. now apply simple_rerank_length.
  - unfold ask_enhanced_try in Hrun. invert_block Hrun. simpl.
    rewrite len_imap, len_map. split; [reflexivity|].
    split; [apply len_nonneg|]. now apply simple_rerank_length.
Qed.

(** C1. With a configured [TOP_K >= 1] and a store that returns at most as
    many chunks as it is asked for, each of the four methods returns a
    result whose number of citations is its [source_count], which is at
    most [TOP_K]; when the [try] block raises, both are zero. *)
Theorem citations_match_source_count (b : branch) (question : string)
    (w : World) :
  1 <= TOP_K settings ->
  store_returns_at_most_k ->
  let r := fst (run b question w) in
  len (citations r) = source_count r
  /\ 0 <= source_count r <= TOP_K settings
  /\ (forall e w1,
        try_block b question (fst (time_time w)) (snd (time_time w))
        = (Raise e, w1) ->
        citations r = [] /\ source_count r = 0).
Proof.
  intros Hk Hstore r. subst r.
  destruct (run_cases b question w) as [(r & w1 & Htry & ->)|(e & w1 & Htry & ->)].
  - simpl. destruct (try_block_counts _ _ _ _ _ _ Hk Hstore Htry) as [Hc Hs].
    split; [exact Hc|]. split; [exact Hs|].
    intros e' w1' Hraise. rewrite Htry in Hraise. discriminate Hraise.
  - unfold error_result. destruct (time_time w1) as [now w2]. simpl.
    split; [reflexivity|]. split; [lia|]. intros _ _ _. split; reflexivity.
Qed.

(** A failed retrieval ends the [try] block with the exception of the
    store. *)
Lemma retrieval_failure_raises b question start_time w0 e w1 :
  candidates b question w0 = (Raise e, w1) ->
  try_block b question start_time w0 = (Raise e, w1).
Proof.
  intros Hfail. destruct b; simpl in *;
    unfold ask_basic_try, ask_hyde_try, ask_rerank_try, ask_enhanced_try;
    unfold bind at 1; now rewrite Hfail.
Qed.

(** A failed generation ends the [try] block with the exception of the
    chat endpoint. *)
Lemma generation_failure_raises b question start_time w0 docs w1 e w2 :
  candidates b question w0 = (Ok docs, w1) ->
  generation_fails w1 e w2 ->
  try_block b question start_time w0 = (Raise e, w2).
Proof.
  intros Hdocs Hfail. destruct b; simpl in *;
    unfold ask_basic_try, ask_hyde_try, ask_rerank_try, ask_enhanced_try;
    unfold bind at 1; rewrite Hdocs; unfold bind at 1; now rewrite Hfail.
Qed.

(** When the [try] block raises, the handler's dictionary is the
    result. *)
Lemma raise_is_caught b question w e w1 :
  try_block b question (fst (time_time w)) (snd (time_time w)) = (Raise e, w1) ->
  run b question w
  = error_result question (method_tag b) (fst (time_time w)) e w1.
Proof.
  intros Hraise.
  destruct (run_cases b question w) as [(r & w1' & Htry & _)|(e' & w1' & Htry & ->)].
  - rewrite Htry in Hraise. discriminate Hraise.
  - rewrite Htry in Hraise. now injection Hraise as -> ->.
Qed.

(** C9. When a step of a method raises (the retrieval, the generation
    call, or anything else inside the [try] block, such as the confidence
    computation; reranking itself cannot raise), the method still returns:
    the answer is the error message carrying the text of the exception, the
    confidence is 0.0, there are no citations, [source_count] is 0, and
    [response_time] is the clock reading taken by the handler minus the one
    taken at the start. *)
Theorem failure_gives_error_result (b : branch) (question : string)
    (w w1 : World) (e : exn) :
  let start_time := fst (time_time w) in
  let w0 := snd (time_time w) in
  candidates b question w0 = (Raise e, w1)
  \/ (exists docs wm, candidates b question w0 = (Ok docs, wm)
                      /\ generation_fails wm e w1)
  \/ try_block b question start_time w0 = (Raise e, w1) ->
  run b question w
  = ({| question := question;
        answer := "抱歉，回答问题时出现错误：" +:+ str_exn e;
        citations := [];
        confidence := 0.0%Q;
        response_time := (fst (time_time w1) - start_time)%Q;
        source_count := 0;
        tokens_used := Some 0;
        retrieval_method := method_tag b |},
     snd (time_time w1)).
Proof.
  intros start_time w0 Hfail.
  assert (Hraise : try_block b question start_time w0 = (Raise e, w1)).
  { destruct Hfail as [Hret|[(docs & wm & Hdocs & Hgen)|Hraise]].
    - now apply retrieval_failure_raises.
    - now apply generation_failure_raises with docs wm.
    - exact Hraise. }
  rewrite (raise_is_caught _ _ _ _ _ Hraise).
  unfold error_result. now destruct (time_time w1).
Qed.
End Ask.

Lemma demo_store_returns_at_most_k store store_up llm_up top_k :
  Reference.store_returns_at_most_k (RT := Demo.runtime store store_up llm_up top_k).
Proof.
  intros query k w docs w' Hk. simpl.
  destruct store_up; [|discriminate]. intros [= <- _].
  unfold len. rewrite length_take. lia.
Qed.

Lemma citations_match_source_count_witness :
  let R := Demo.runtime Demo.store3 true true 2 in
  let r := fst (App.run (RT := R) App.Enhanced "What is RAG?" 0%nat) in
  1 <= TOP_K (settings (Runtime := R))
  /\ len (citations r) = source_count r
  /\ 0 <= source_count r <= 2.
Proof.
  intros R r.
  assert (Hk : 1 <= TOP_K (settings (Runtime := R))) by (simpl; lia).
  destruct (citations_match_source_count (RT := R) App.Enhanced "What is RAG?"
              0%nat Hk (demo_store_returns_at_most_k _ _ _ _))
    as (Hc & Hs & _).
  split; [exact Hk|]. split; [exact Hc|exact Hs].
Defined.

Lemma failure_gives_error_result_witness :
  let R := Demo.runtime Demo.store3 true false 5 in
  let r := fst (App.run (RT := R) App.Basic "What is RAG?" 0%nat) in
  answer r = ("抱歉，回答问题时出现错误：" +:+ "generation unreachable")%string
  /\ confidence r = 0.0%Q
  /\ citations r = []
  /\ source_count r = 0
  /\ response_time r = (inject_Z 1 - inject_Z 0)%Q.
Proof.
  intros R r. subst r.
  rewrite (failure_gives_error_result (RT := R) App.Basic "What is RAG?"
             0%nat 1%nat (RuntimeError "generation unreachable")).
  - repeat split; reflexivity.
  - right. left. exists Demo.store3, 1%nat. split; [reflexivity|].
    intros model prompt temperature max_tokens. reflexivity.
Defined.

(** * Further properties *)

(** ** The score read from the model's reply *)

Section SemanticScore.
Import Text TextMore Reranker RerankerLLM Reference ReferenceMore.
Context {RT : Runtime}.
Local Open Scope Q_scope.

Lemma score_of_reply_range score_text : 0 <= score_of_reply score_text <= 1.
Proof.
  unfold score_of_reply. destruct (search_digits score_text) as [digits|]; [|lra].
  set (score := float_of_int (int_of_digits digits) / 10.0).
  pose proof (py_max_ge_r score 0.0) as Hlow.
  pose proof (py_min_le_r (py_max score 0.0) 1.0) as Hhigh.
  split; [|lra]. apply py_min_glb; lra.
Qed.

Lemma all_chars_app keep s t :
  all_chars keep (s +:+ t) = all_chars keep s && all_chars keep t.
Proof.
  induction s as [|c s IH]; simpl; [reflexivity|].
  rewrite IH. now rewrite andb_assoc.
Qed.

Lemma runs_all_chars keep cur s t :
  all_chars keep cur = true -> t ∈ runs keep cur s -> all_chars keep t = true.
Proof.
  revert cur. induction s as [|c s IH]; intros cur Hcur Hin; simpl in Hin.
  - destruct cur; simpl in Hin.
    + now apply elem_of_nil in Hin.
    + apply list_elem_of_singleton in Hin as ->. exact Hcur.
  - destruct (keep c) eqn:Hc.
    + apply (IH (cur +:+ String c EmptyString)); [|exact Hin].
      rewrite all_chars_app, Hcur. simpl. now rewrite Hc.
    + apply elem_of_app in Hin as [Hin|Hin].
      * destruct cur; simpl in Hin.
        -- now apply elem_of_nil in Hin.
        -- apply list_elem_of_singleton in Hin as ->. exact Hcur.
      * now apply (IH EmptyString).
Qed.

Lemma search_digits_all_digits s digits :
  search_digits s = Some digits -> all_chars is_digit digits = true.
Proof.
  unfold search_digits. intros Hhead.
  apply (runs_all_chars is_digit EmptyString s); [reflexivity|].
  destruct (runs is_digit EmptyString s) as [|t ts]; [discriminate|].
  injection Hhead as ->. apply elem_of_cons. now left.
Qed.

Lemma digit_value_nonneg c : is_digit c = true -> (0 <= digit_value c <= 9)%Z.
Proof.
  unfold is_digit, digit_value. intros H.
  apply andb_true_iff in H as [H1 H2].
  apply N.leb_le in H1, H2. lia.
Qed.

Lemma int_of_digits_from_nonneg acc ds :
  (0 <= acc)%Z -> all_chars is_digit ds = true ->
  (0 <= int_of_digits_from acc ds)%Z.
Proof.
  revert acc. induction ds as [|c ds IH]; intros acc Hacc Hall; simpl; [exact Hacc|].
  simpl in Hall. apply andb_true_iff in Hall as [Hc Hall].
  apply IH; [|exact Hall]. pose proof (digit_value_nonneg c Hc). lia.
Qed.

Lemma semantic_score_range query document w :
  0 <= fst (calculate_semantic_score query document w) <= 1.
Proof.
  unfold calculate_semantic_score.
  destruct (chat_completions_create _ _ _ _ w) as [[response|e] w']; simpl.
  - apply score_of_reply_range.
  - lra.
Qed.

(** X1. Whatever the model replies, and also when the call fails, the
    semantic score lies between 0 and 1. *)
Theorem semantic_score_in_unit_interval (query document : string) (w : World) :
  0 <= fst (calculate_semantic_score query document w) <= 1.
Proof. apply semantic_score_range. Qed.

(** X2. When the reply, once stripped, has a first run of digits that reads
    [n], the semantic score is [n / 10], capped at 1: every [n >= 10] gives
    the full score. *)
Theorem semantic_score_of_number (query document : string) (w w' : World)
    (response : ChatResponse) (digits : string) :
  chat_completions_create (MODEL_NAME settings)
    (semantic_prompt query document) 0.1 10%Z w = (Ok response, w') ->
  search_digits (strip (message_content response)) = Some digits ->
  fst (calculate_semantic_score query document w)
  == Qmin (inject_Z (int_of_digits digits) / 10) 1
  /\ ((10 <= int_of_digits digits)%Z ->
      fst (calculate_semantic_score query document w) == 1).
Proof.
  intros Hchat Hdigits. unfold calculate_semantic_score. rewrite Hchat. simpl.
  unfold score_of_reply. rewrite Hdigits.
  pose proof (search_digits_all_digits _ _ Hdigits) as Hall.
  pose proof (int_of_digits_from_nonneg 0 digits ltac:(lia) Hall) as Hn.
  fold (int_of_digits digits) in Hn.
  set (n := int_of_digits digits) in *.
  assert (Hq : 0 <= inject_Z n).
  { change 0 with (inject_Z 0). now rewrite <- Zle_Qle. }
  assert (Hscore : float_of_int n / 10.0 == inject_Z n / 10).
  { unfold float_of_int. field. }
  assert (Hpos : 0 <= inject_Z n / 10) by (apply Qle_shift_div_l; lra).
  assert (Hmax : py_max (float_of_int n / 10.0) 0.0 == inject_Z n / 10).
  { unfold py_max. destruct (Qlt_le_dec (float_of_int n / 10.0) 0.0); lra. }
  assert (Hval : py_min (py_max (float_of_int n / 10.0) 0.0) 1.0
                 == Qmin (inject_Z n / 10) 1).
  { rewrite py_min_Qmin, Hmax.
    assert (Hone : 1.0 == 1) by reflexivity. now rewrite Hone. }
  split; [exact Hval|].
  intros Hten. rewrite Hval. apply Q.min_r.
  apply Qle_shift_div_l; [lra|]. rewrite Qmult_1_l.
  change 10 with (inject_Z 10). now rewrite <- Zle_Qle.
Qed.

(** When the call to the model raises, or the stripped reply holds no
    digit, the semantic score is the neutral 0.5. *)
Lemma semantic_score_fallback (query document : string) (w : World) :
  (exists e w', chat_completions_create (MODEL_NAME settings)
                  (semantic_prompt query document) 0.1 10%Z w = (Raise e, w'))
  \/ (exists response w',
        chat_completions_create (MODEL_NAME settings)
          (semantic_prompt query document) 0.1 10%Z w = (Ok response, w')
        /\ search_digits (strip (message_content response)) = None) ->
  fst (calculate_semantic_score query document w) = 0.5.
Proof.
  unfold calculate_semantic_score.
  intros [(e & w' & ->)|(response & w' & -> & Hnone)]; simpl; [reflexivity|].
  unfold score_of_reply. now rewrite Hnone.
Qed.
End SemanticScore.

(** ** Reranking with the model's scores *)

Section AdvancedRerank.
Import Text TextMore Reranker RerankerLLM Reference ReferenceMore.
Context {RT : Runtime}.
Local Open Scope Q_scope.





(** X4. [compare_ranking_methods] lists as many chunks in [original_order]
    as in [simple_ranking] whenever [top_k] is not 0; with [top_k = 0] the
    original order is empty while the simple ranking holds every
    document. *)
Theorem compare_ranking_lengths (query : string) (documents : list Document)
    (top_k : Z) :
  let c := compare_ranking_methods query documents top_k in
  documents_count c = len documents
  /\ len (original_order c)
     = (if (top_k =? 0)%Z then 0%Z else len (simple_ranking c))
  /\ len (simple_ranking (compare_ranking_methods query documents 0))
     = len documents.
Proof.
  intros c. subst c. unfold compare_ranking_methods. simpl.
  split; [reflexivity|]. split.
  - destruct (Z.eqb_spec top_k 0) as [->|Hk]; [reflexivity|].
    unfold simple_rerank. rewrite or_default_nonzero by exact Hk.
    set (scored := sort_desc _).
    assert (Hlen : length scored = length documents).
    { unfold scored.
      rewrite (Permutation_length (sort_desc_perm _)). apply length_map. }
    unfold len, slice_to. rewrite length_map.
    destruct (top_k <? 0)%Z; rewrite !length_take; unfold len; rewrite Hlen;
      reflexivity.
  - unfold simple_rerank. rewrite or_default_zero.
    set (scored := map _ documents).
    replace (len documents) with (len (sort_desc scored)).
    + now rewrite slice_to_len.
    + rewrite len_sort_desc. unfold scored, len. now rewrite length_map.
Qed.
End AdvancedRerank.

(** ** Embedding the documents *)

Section Batches.
Import Embeddings.

Lemma batches_concat (m : nat) (texts : list string) :
  (length texts <= m * batch_size)%nat ->
  concat (map (fun j => batch_at texts (j * batch_size)) (seq 0 m)) = texts.
Proof.
  revert texts. induction m as [|m IH]; intros texts Hlen.
  - simpl in *. destruct texts; [reflexivity|simpl in Hlen; lia].
  - simpl seq. rewrite <- seq_shift. cbn [map concat]. rewrite map_map.
    transitivity (take batch_size texts ++ drop batch_size texts);
      [|apply take_drop].
    f_equal.
    etransitivity; [|apply (IH (drop batch_size texts))].
    + f_equal. apply map_ext. intros j. unfold batch_at.
      rewrite drop_drop. reflexivity.
    + rewrite length_drop. unfold batch_size in *. lia.
Qed.

Lemma batch_count_enough (n : nat) :
  (n <= Nat.div (n + (batch_size - 1)) batch_size * batch_size)%nat.
Proof.
  unfold batch_size.
  pose proof (Nat.div_mod_eq (n + (10 - 1)) 10).
  pose proof (Nat.mod_upper_bound (n + (10 - 1)) 10). lia.
Qed.

Lemma batches_cover (texts : list string) :
  concat (map (batch_at texts) (batch_starts (length texts))) = texts.
Proof.
  unfold batch_starts. rewrite map_map.
  apply batches_concat, batch_count_enough.
Qed.

(** X5. The batches [embed_documents] sends are consecutive slices of the
    texts: put end to end they are the texts, none skipped or repeated, and
    each holds between 1 and 10 texts. *)
Theorem batches_partition_texts (texts : list string) :
  let batches := map (batch_at texts) (batch_starts (length texts)) in
  concat batches = texts
  /\ Forall (fun batch => (1 <= length batch <= batch_size)%nat) batches.
Proof.
  intros batches. subst batches. split; [apply batches_cover|].
  unfold batch_starts. rewrite map_map.
  - rewrite Forall_forall. intros batch Hin.
    apply list_elem_of_fmap in Hin as (j & -> & Hj).
    apply elem_of_seq in Hj. unfold batch_at.
    rewrite length_take, length_drop. unfold batch_size in *.
    pose proof (Nat.div_mod_eq (length texts + (10 - 1)) 10).
    pose proof (Nat.mod_upper_bound (length texts + (10 - 1)) 10). lia.
Qed.
End Batches.

Section EmbedDocuments.
Import Embeddings ReferenceMore.
Context {RT : Runtime}.
Variable embeddings_create :
  string -> emb_input -> World -> result (list vector) * World.

Lemma embed_one_by_one_length batch embeddings w :
  length (fst (embed_one_by_one embeddings_create batch embeddings w))
  = (length embeddings + length batch)%nat.
Proof.
  revert embeddings w. induction batch as [|text rest IH]; intros embeddings w; simpl.
  - lia.
  - destruct (embeddings_create embedding_model (InputText text) w)
      as [[[|embedding data]|e] w']; rewrite IH, length_app; simpl; lia.
Qed.

Lemma embed_batches_length batches embeddings w :
  batch_answers_in_full embeddings_create ->
  length (fst (embed_batches embeddings_create batches embeddings w))
  = (length embeddings + length (concat batches))%nat.
Proof.
  intros Hfull. revert embeddings w.
  induction batches as [|batch rest IH]; intros embeddings w; simpl.
  - lia.
  - unfold embed_batch.
    destruct (embeddings_create embedding_model (InputBatch batch) w)
      as [[data|e] w'] eqn:Hcall.
    + rewrite IH, !length_app. rewrite (Hfull _ _ _ _ _ Hcall). lia.
    + pose proof (embed_one_by_one_length batch embeddings w') as Hone.
      destruct (embed_one_by_one embeddings_create batch embeddings w')
        as [embeddings' w''].
      simpl in Hone. rewrite IH, Hone, length_app. lia.
Qed.

(** X6. As long as a batch call that succeeds answers with one vector per
    text, [embed_documents] returns exactly one vector per text, whichever
    calls fail: a failed batch is redone text by text and a text that fails
    again still gets a vector. *)
Theorem embed_documents_one_vector_per_text (texts : list string) (w : World) :
  batch_answers_in_full embeddings_create ->
  length (fst (embed_documents embeddings_create texts w)) = length texts.
Proof.
  intros Hfull. unfold embed_documents.
  rewrite embed_batches_length by exact Hfull.
  now rewrite batches_cover.
Qed.

Lemma embed_one_by_one_outage batch embeddings w :
  embedding_outage embeddings_create ->
  fst (embed_one_by_one embeddings_create batch embeddings w)
  = embeddings ++ replicate (length batch) zero_vector.
Proof.
  intros Hdown. revert embeddings w.
  induction batch as [|text rest IH]; intros embeddings w; simpl.
  - now rewrite app_nil_r.
  - destruct (Hdown embedding_model (InputText text) w) as (e & w' & ->).
    rewrite IH, <- app_assoc. reflexivity.
Qed.

Lemma embed_batches_outage batches embeddings w :
  embedding_outage embeddings_create ->
  fst (embed_batches embeddings_create batches embeddings w)
  = embeddings ++ replicate (length (concat batches)) zero_vector.
Proof.
  intros Hdown. revert embeddings w.
  induction batches as [|batch rest IH]; intros embeddings w; simpl.
  - now rewrite app_nil_r.
  - unfold embed_batch.
    destruct (Hdown embedding_model (InputBatch batch) w) as (e & w' & ->).
    pose proof (embed_one_by_one_outage batch embeddings w' Hdown) as Hone.
    destruct (embed_one_by_one embeddings_create batch embeddings w')
      as [embeddings' w''].
    simpl in Hone. rewrite IH, Hone, <- app_assoc, length_app.
    now rewrite replicate_add.
Qed.

(** X7. When every call to the embedding endpoint raises,
    [embed_documents] raises nothing and returns the zero vector of
    dimension 1536 for each text. *)
Theorem embed_documents_outage_gives_zero_vectors (texts : list string)
    (w : World) :
  embedding_outage embeddings_create ->
  fst (embed_documents embeddings_create texts w)
  = replicate (length texts) zero_vector
  /\ length zero_vector = 1536%nat.
Proof.
  intros Hdown. split; [|reflexivity]. unfold embed_documents.
  rewrite embed_batches_outage by exact Hdown.
  now rewrite batches_cover.
Qed.
End EmbedDocuments.

(** ** Comparing the four methods *)

Section CompareMethods.
Import Chain ChainCompare ReferenceMore.
Context {RT : Runtime}.
Local Open Scope Q_scope.

Lemma insert_rank_desc_perm x l : insert_rank_desc x l ≡ₚ x :: l.
Proof.
  induction l as [|y l IH]; simpl; [reflexivity|].
  destruct (Qlt_le_dec (snd x) (snd y)); [|reflexivity].
  rewrite IH. apply Permutation_swap.
Qed.

Lemma sorted_desc_by_value_perm l : sorted_desc_by_value l ≡ₚ l.
Proof.
  induction l as [|x l IH]; simpl; [reflexivity|].
  rewrite insert_rank_desc_perm. now rewrite IH.
Qed.

Lemma insert_rank_asc_perm x l : insert_rank_asc x l ≡ₚ x :: l.
Proof.
  induction l as [|y l IH]; simpl; [reflexivity|].
  destruct (Qlt_le_dec (snd y) (snd x)); [|reflexivity].
  rewrite IH. apply Permutation_swap.
Qed.

Lemma sorted_asc_by_value_perm l : sorted_asc_by_value l ≡ₚ l.
Proof.
  induction l as [|x l IH]; simpl; [reflexivity|].
  rewrite insert_rank_asc_perm. now rewrite IH.
Qed.

Lemma strongly_sorted_values (R : string * Q -> string * Q -> Prop) l :
  StronglySorted R l ->
  forall i j p q, (i < j)%nat -> l !! i = Some p -> l !! j = Some q -> R p q.
Proof.
  induction 1 as [|y l Hs IH Hall]; intros i j p q Hij Hi Hj.
  - now rewrite lookup_nil in Hi.
  - destruct j as [|j]; [lia|]. simpl in Hj.
    destruct i as [|i]; simpl in Hi.
    + injection Hi as <-. rewrite Forall_forall in Hall.
      apply Hall. eapply list_elem_of_lookup_2; eauto.
    + apply (IH i j); auto. lia.
Qed.

Lemma sorted_desc_by_value_sorted l :
  StronglySorted (fun p q => snd q <= snd p) (sorted_desc_by_value l).
Proof.
  induction l as [|x l IH]; simpl; [constructor|].
  revert IH. generalize (sorted_desc_by_value l). clear l.
  induction 1 as [|y l Hs IH Hall]; simpl.
  - constructor; constructor.
  - destruct (Qlt_le_dec (snd x) (snd y)) as [Hlt|Hle].
    + constructor; [exact IH|].
      rewrite Forall_forall. intros z Hz.
      rewrite insert_rank_desc_perm in Hz. apply elem_of_cons in Hz as [->|Hz].
      * now apply Qlt_le_weak.
      * rewrite Forall_forall in Hall. now apply Hall.
    + constructor; [now constructor|].
      constructor; [exact Hle|].
      rewrite Forall_forall in Hall |- *. intros z Hz.
      specialize (Hall z Hz). simpl in *. lra.
Qed.

Lemma sorted_asc_by_value_sorted l :
  StronglySorted (fun p q => snd p <= snd q) (sorted_asc_by_value l).
Proof.
  induction l as [|x l IH]; simpl; [constructor|].
  revert IH. generalize (sorted_asc_by_value l). clear l.
  induction 1 as [|y l Hs IH Hall]; simpl.
  - constructor; constructor.
  - destruct (Qlt_le_dec (snd y) (snd x)) as [Hlt|Hle].
    + constructor; [exact IH|].
      rewrite Forall_forall. intros z Hz.
      rewrite insert_rank_asc_perm in Hz. apply elem_of_cons in Hz as [->|Hz].
      * now apply Qlt_le_weak.
      * rewrite Forall_forall in Hall. now apply Hall.
    + constructor; [now constructor|].
      constructor; [exact Hle|].
      rewrite Forall_forall in Hall |- *. intros z Hz.
      specialize (Hall z Hz). simpl in *. lra.
Qed.

(** [compare_methods] runs the four methods one after the other, in the
    order basic, hyde, rerank, enhanced, each in the world the previous one
    left, and keeps their results under these four keys. *)
Lemma compare_methods_runs_all_four (question : string) (w : World) :
  let r1 := ask_basic question w in
  let r2 := ask_hyde question (snd r1) in
  let r3 := ask_rerank question (snd r2) in
  let r4 := ask_enhanced question (snd r3) in
  mc_results (fst (compare_methods question w))
  = [("basic"%string, fst r1); ("hyde"%string, fst r2);
     ("rerank"%string, fst r3); ("enhanced"%string, fst r4)]
  /\ snd (compare_methods question w) = snd r4.
Proof.
  unfold compare_methods, methods. simpl.
  destruct (ask_basic question w) as [a1 w1]. simpl.
  destruct (ask_hyde question w1) as [a2 w2]. simpl.
  destruct (ask_rerank question w2) as [a3 w3]. simpl.
  destruct (ask_enhanced question w3) as [a4 w4]. simpl.
  split; reflexivity.
Qed.

(** X8. Both rankings of [compare_methods] rank exactly the four methods:
    the confidence ranking lists them by non-increasing confidence, the speed
    ranking by non-decreasing response time, and each pairs a method with
    the value of its own result. *)
Theorem compare_methods_rankings (question : string) (w : World) :
  let c := fst (compare_methods question w) in
  confidence_ranking c
    ≡ₚ map (fun kv => (fst kv, confidence (snd kv))) (mc_results c)
  /\ values_desc (confidence_ranking c)
  /\ speed_ranking c
       ≡ₚ map (fun kv => (fst kv, response_time (snd kv))) (mc_results c)
  /\ values_asc (speed_ranking c)
  /\ map fst (confidence_ranking c)
       ≡ₚ ["basic"; "hyde"; "rerank"; "enhanced"]%string
  /\ map fst (speed_ranking c)
       ≡ₚ ["basic"; "hyde"; "rerank"; "enhanced"]%string.
Proof.
  intros c. subst c. unfold compare_methods.
  assert (Hkeys : map fst (fst (run_methods methods question [] w))
                  = ["basic"; "hyde"; "rerank"; "enhanced"]%string).
  { unfold methods. simpl.
    destruct (ask_basic question w) as [a1 w1]. simpl.
    destruct (ask_hyde question w1) as [a2 w2]. simpl.
    destruct (ask_rerank question w2) as [a3 w3]. simpl.
    destruct (ask_enhanced question w3) as [a4 w4]. reflexivity. }
  destruct (run_methods methods question [] w) as [results w']. simpl in *.
  split; [apply sorted_desc_by_value_perm|].
  split.
  { intros i j p q Hij Hi Hj.
    exact (strongly_sorted_values _ _ (sorted_desc_by_value_sorted _)
             i j p q Hij Hi Hj). }
  split; [apply sorted_asc_by_value_perm|].
  split.
  { intros i j p q Hij Hi Hj.
    exact (strongly_sorted_values _ _ (sorted_asc_by_value_sorted _)
             i j p q Hij Hi Hj). }
  split.
  - rewrite sorted_desc_by_value_perm, map_map, <- Hkeys. reflexivity.
  - rewrite sorted_asc_by_value_perm, map_map, <- Hkeys. reflexivity.
Qed.
End CompareMethods.

(** ** What every answer looks like *)

Section AnswerShape.
Import Text VectorStore HyDE Reranker Chain App Reference.
Context {RT : Runtime}.
Local Open Scope Q_scope.

Ltac invert_try Hrun :=
  repeat (apply bind_ok in Hrun as (? & ? & ? & Hrun));
  apply ret_ok in Hrun as [-> ->].

Lemma bind_run {A B} (m : M A) (f : A -> M B) w a w1 :
  m w = (Ok a, w1) -> bind m f w = f a w1.
Proof. intros Hm. unfold bind. now rewrite Hm. Qed.

(** A confidence that was computed, whatever [TOP_K], is in range. *)
Lemma confidence_computed_range source_docs question answer retrieval_method c :
  calculate_enhanced_confidence source_docs question answer retrieval_method
  = Ok c ->
  0.1 <= c <= 0.95.
Proof.
  unfold calculate_enhanced_confidence.
  destruct source_docs as [|doc rest].
  - intros [= <-]. lra.
  - destruct (doc_score (doc :: rest)) as [d|e]; [|discriminate].
    destruct (relevance_score (doc :: rest) question) as [r|e]; [|discriminate].
    destruct (keyword_score question answer) as [k|e]; [|discriminate].
    cbn [rbind]. intros [= <-]. apply clamp_range.
Qed.

Lemma try_block_confidence b question start_time w0 r w1 :
  try_block b question start_time w0 = (Ok r, w1) ->
  0.1 <= confidence r <= 0.95.
Proof.
  intros Hrun. destruct b; simpl in Hrun;
    unfold ask_basic_try, ask_hyde_try, ask_rerank_try, ask_enhanced_try in Hrun;
    invert_try Hrun; simpl;
    match goal with
    | Hc : lift _ _ = _ |- _ =>
        apply lift_ok in Hc as [Hc _];
        now apply confidence_computed_range in Hc
    end.
Qed.

(** X9. Whatever the configuration, the store and the model do, the
    confidence a method returns is either the 0.0 of the error dictionary
    or a value between 0.1 and 0.95. *)
Theorem ask_confidence_values (b : branch) (question : string) (w : World) :
  let r := fst (run b question w) in
  confidence r = 0.0 \/ 0.1 <= confidence r <= 0.95.
Proof.
  intros r. subst r.
  destruct (run_cases b question w) as [(r & w1 & Htry & ->)|(e & w1 & Htry & ->)].
  - right. simpl. eapply try_block_confidence; eauto.
  - left. unfold error_result. now destruct (time_time w1).
Qed.

(** *** Citations *)

Lemma substring_length_le n m s :
  (String.length (String.substring n m s) <= m)%nat.
Proof.
  revert n m. induction s as [|c s IH]; intros n m; simpl.
  - destruct n, m; simpl; lia.
  - destruct n as [|n].
    + destruct m as [|m]; simpl; [lia|]. specialize (IH 0%nat m). lia.
    + apply IH.
Qed.

Lemma append_length s t :
  String.length (s +:+ t) = (String.length s + String.length t)%nat.
Proof. induction s as [|c s IH]; simpl; [reflexivity|]. now rewrite IH. Qed.

Lemma preview_length content : (slen (preview content) <= 203)%Z.
Proof.
  unfold preview, slen.
  destruct (Z.ltb_spec 200 (Z.of_nat (String.length content))) as [Hlong|Hshort].
  - rewrite append_length. simpl.
    pose proof (substring_length_le 0 200 content). lia.
  - lia.
Qed.

Lemma preview_short content :
  (slen content <= 200)%Z -> preview content = content.
Proof.
  intros Hshort. unfold preview.
  destruct (Z.ltb_spec 200 (slen content)); [lia|reflexivity].
Qed.

Lemma lookup_citation_plain method (docs : list Document) i c :
  imap (fun i doc => citation_of method i doc None) docs !! i = Some c ->
  exists doc, docs !! i = Some doc /\ c = citation_of method i doc None.
Proof.
  rewrite list_lookup_imap. destruct (docs !! i) as [doc|]; [|discriminate].
  simpl. intros [= <-]. eauto.
Qed.

Lemma lookup_citation_scored method (ranked : list (Document * Q)) i c :
  imap (fun i ds => citation_of method i (fst ds) (Some (round3 (snd ds))))
    ranked !! i = Some c ->
  exists ds, ranked !! i = Some ds
             /\ c = citation_of method i (fst ds) (Some (round3 (snd ds))).
Proof.
  rewrite list_lookup_imap. destruct (ranked !! i) as [ds|]; [|discriminate].
  simpl. intros [= <-]. eauto.
Qed.

Lemma try_block_method b question start_time w0 r w1 :
  try_block b question start_time w0 = (Ok r, w1) ->
  retrieval_method r = method_tag b.
Proof.
  intros Hrun. destruct b; simpl in Hrun;
    unfold ask_basic_try, ask_hyde_try, ask_rerank_try, ask_enhanced_try in Hrun;
    invert_try Hrun; reflexivity.
Qed.

Lemma try_block_citations b question start_time w0 r w1 i c :
  try_block b question start_time w0 = (Ok r, w1) ->
  citations r !! i = Some c ->
  cit_chunk_id c = Z.of_nat i
  /\ (slen (cit_content c) <= 203)%Z
  /\ cit_retrieval_method c = method_tag b
  /\ (cit_rerank_score c = None <-> b = Basic \/ b = Hyde).
Proof.
  intros Hrun Hc. destruct b; simpl in Hrun;
    unfold ask_basic_try, ask_hyde_try, ask_rerank_try, ask_enhanced_try in Hrun;
    invert_try Hrun; simpl in Hc.
  - apply lookup_citation_plain in Hc as (doc & _ & ->). simpl.
    split; [reflexivity|]. split; [apply preview_length|].
    split; [reflexivity|]. split; auto.
  - apply lookup_citation_plain in Hc as (doc & _ & ->). simpl.
    split; [reflexivity|]. split; [apply preview_length|].
    split; [reflexivity|]. split; auto.
  - apply lookup_citation_scored in Hc as (ds & _ & ->). simpl.
    split; [reflexivity|]. split; [apply preview_length|].
    split; [reflexivity|]. split; [discriminate|]. intros [?|?]; discriminate.
  - apply lookup_citation_scored in Hc as (ds & _ & ->). simpl.
    split; [reflexivity|]. split; [apply preview_length|].
    split; [reflexivity|]. split; [discriminate|]. intros [?|?]; discriminate.
Qed.

(** X10. In the result of any method, the citation at position [i] has
    [chunk_id = i], a content of at most 203 characters (200 and the
    ellipsis), the method tag of the result itself, and a [rerank_score]
    exactly in the two reranking methods. *)
Theorem citations_well_formed (b : branch) (question : string) (w : World)
    (i : nat) (c : Citation) :
  citations (fst (run b question w)) !! i = Some c ->
  cit_chunk_id c = Z.of_nat i
  /\ (slen (cit_content c) <= 203)%Z
  /\ cit_retrieval_method c = retrieval_method (fst (run b question w))
  /\ (cit_rerank_score c = None <-> b = Basic \/ b = Hyde).
Proof.
  destruct (run_cases b question w) as [(r & w1 & Htry & ->)|(e & w1 & Htry & ->)].
  - simpl. intros Hc.
    rewrite (try_block_method _ _ _ _ _ _ Htry).
    eapply try_block_citations; eauto.
  - unfold error_result. destruct (time_time w1) as [now w2]. simpl.
    intros Hc. now rewrite lookup_nil in Hc.
Qed.

(** *** An empty retrieval *)

Lemma simple_rerank_nil query top_k : simple_rerank query [] top_k = [].
Proof.
  unfold simple_rerank, slice_to. simpl.
  destruct (or_default top_k (len []) <? 0)%Z; now rewrite take_nil.
Qed.

(** X11. When the retrieval of a method finds nothing and the model then
    answers, the method returns the model's answer with confidence exactly
    0.1, no citation and [source_count = 0], whatever [TOP_K] is. *)
Theorem empty_retrieval_gives_floor (b : branch) (question : string)
    (w w1 w2 : World) (response : ChatResponse) :
  candidates b question (snd (time_time w)) = (Ok [], w1) ->
  chat_completions_create (MODEL_NAME settings)
    (system_prompt EmptyString question) 0.1 1000%Z w1 = (Ok response, w2) ->
  let r := fst (run b question w) in
  answer r = message_content response
  /\ confidence r = 0.1
  /\ citations r = []
  /\ source_count r = 0%Z
  /\ tokens_used r = usage_total_tokens response.
Proof.
  intros Hdocs Hchat r. subst r.
  destruct (time_time w) as [start_time w0] eqn:Hstart. simpl in Hdocs.
  assert (Hfinish : forall method,
    (bind (chat_completions_create (MODEL_NAME settings)
             (system_prompt EmptyString question) 0.1 1000%Z)
       (fun response =>
          bind (total time_time)
            (fun now =>
               bind (lift (calculate_enhanced_confidence [] question
                             (message_content response) method))
                 (fun confidence =>
                    ret (answer_result question (message_content response) []
                           confidence (now - start_time) []
                           (usage_total_tokens response) method))))) w1
    = (Ok (answer_result question (message_content response) [] 0.1
             (fst (time_time w2) - start_time) []
             (usage_total_tokens response) method),
       snd (time_time w2))).
  { intros method. rewrite (bind_run _ _ _ _ _ Hchat).
    unfold bind, total, lift, ret. destruct (time_time w2). reflexivity. }
  destruct b; simpl in Hdocs; simpl run;
    unfold ask_basic, ask_hyde, ask_rerank, ask_enhanced, try_except;
    rewrite Hstart;
    unfold ask_basic_try, ask_hyde_try, ask_rerank_try, ask_enhanced_try;
    rewrite (bind_run _ _ _ _ _ Hdocs); rewrite ?simple_rerank_nil;
    cbn [imap map join]; rewrite Hfinish; simpl; repeat split; reflexivity.
Qed.

(** *** How many chunks are cited *)

Lemma simple_rerank_len_min query documents top_k :
  (1 <= top_k)%Z ->
  len (simple_rerank query documents (Some top_k)) = Z.min top_k (len documents).
Proof.
  intros Hk. unfold simple_rerank.
  rewrite or_default_nonzero by lia. rewrite slice_to_nonneg by lia.
  unfold len. rewrite length_take.
  rewrite (Permutation_length (sort_desc_perm _)), length_map. lia.
Qed.

(** X12. With [TOP_K >= 1], a method that answers cites every candidate it
    retrieved in the basic and hyde methods, and the
    [min(TOP_K, number of candidates)] best of them in the two reranking
    methods. *)
Theorem source_count_by_method (b : branch) (question : string)
    (start_time : Q) (w0 w1 w2 : World) (docs : list Document)
    (r : AnswerResult) :
  (1 <= TOP_K settings)%Z ->
  candidates b question w0 = (Ok docs, w1) ->
  try_block b question start_time w0 = (Ok r, w2) ->
  source_count r
  = match b with
    | Basic | Hyde => len docs
    | Rerank | Enhanced => Z.min (TOP_K settings) (len docs)
    end.
Proof.
  intros Hk Hdocs Hrun. destruct b; simpl in *;
    unfold ask_basic_try, ask_hyde_try, ask_rerank_try, ask_enhanced_try in Hrun;
    apply bind_ok in Hrun as (docs' & w1' & Hdocs' & Hrun);
    rewrite Hdocs in Hdocs'; injection Hdocs' as <- <-;
    invert_try Hrun; simpl.
  - reflexivity.
  - reflexivity.
  - rewrite len_map. now apply simple_rerank_len_min.
  - rewrite len_map. now apply simple_rerank_len_min.
Qed.
End AnswerShape.

(** ** Where the exceptions of HyDE retrieval come from *)

Section HydeFailures.
Import VectorStore HyDE.
Context {RT : Runtime}.

(** X13. [hyde_retrieve] never raises on account of the model.  The text it
    looks up first is the reply of the model or, when the generation fails,
    the question itself; an exception that comes out of [hyde_retrieve] was
    raised by the store, either on that first query (for [2k] chunks) or,
    the first having answered, on the query for the question (for [k]
    chunks), [k] being the argument or, at 0 or [None], [settings.TOP_K].
    When the generation fails and the store answers both queries for the
    question, [hyde_retrieve] returns the merge of the two answers. *)
Theorem hyde_retrieve_raises_only_with_store (question : string)
    (k : option Z) (w : World) :
  let kk := or_default k (TOP_K settings) in
  let create :=
    chat_completions_create (MODEL_NAME settings) (hyde_prompt question)
      0.3 300 in
  (forall e w',
     hyde_retrieve question k w = (Raise e, w') ->
     exists hypothetical_answer w1,
       ((exists response,
            create w = (Ok response, w1)
            /\ hypothetical_answer = message_content response)
        \/ (exists e0,
              create w = (Raise e0, w1) /\ hypothetical_answer = question))
       /\ (chroma_similarity_search hypothetical_answer (kk * 2) w1
           = (Raise e, w')
           \/ exists hyde_results w2,
                chroma_similarity_search hypothetical_answer (kk * 2) w1
                = (Ok hyde_results, w2)
                /\ chroma_similarity_search question kk w2 = (Raise e, w')))
  /\ (forall e0 w1 hyde_results w2 question_results w3,
        create w = (Raise e0, w1) ->
        chroma_similarity_search question (kk * 2) w1 = (Ok hyde_results, w2) ->
        chroma_similarity_search question kk w2 = (Ok question_results, w3) ->
        hyde_retrieve question k w
        = (Ok (slice_to kk (merge_unique kk (hyde_results ++ question_results)
                              [] ∅)), w3)).
Proof.
  intros kk create.
  unfold hyde_retrieve, bind, similarity_search, generate_hypothetical_answer.
  rewrite (or_default_double k), (or_default_twice k).
  fold kk. fold create.
  split.
  - intros e w'.
    destruct (create w) as [[response|e0] w1] eqn:Hcreate.
    + exists (message_content response), w1.
      split; [left; eauto|].
      destruct (chroma_similarity_search (message_content response) (kk * 2) w1)
        as [[hyde_results|e1] w2] eqn:H1.
      * destruct (chroma_similarity_search question kk w2)
          as [[question_results|e2] w3] eqn:H2.
        -- unfold ret in H. discriminate H.
        -- injection H as <- <-. right. eauto.
      * injection H as <- <-. now left.
    + exists question, w1.
      split; [right; eauto|].
      destruct (chroma_similarity_search question (kk * 2) w1)
        as [[hyde_results|e1] w2] eqn:H1.
      * destruct (chroma_similarity_search question kk w2)
          as [[question_results|e2] w3] eqn:H2.
        -- unfold ret in H. discriminate H.
        -- injection H as <- <-. right. eauto.
      * injection H as <- <-. now left.
  - intros e0 w1 hyde_results w2 question_results w3 Hcreate H1 H2.
    now rewrite Hcreate, H1, H2.
Qed.
End HydeFailures.

(** ** The scores shown with the citations *)

Section RoundedScores.
Import Text Reranker Chain App Reference ReferenceMore.
Local Open Scope Q_scope.

Lemma round3_pick x :
  round3 x
  = inject_Z (half_even_pick (Qfloor (x * 1000))
                (x * 1000 - inject_Z (Qfloor (x * 1000)))) / 1000.
Proof. reflexivity. Qed.

Lemma half_even_pick_bounds f r : (f <= half_even_pick f r <= f + 1)%Z.
Proof.
  unfold half_even_pick.
  destruct (Qlt_le_dec r 0.5); [lia|].
  destruct (Qlt_le_dec 0.5 r); [lia|].
  destruct (Z.even f); lia.
Qed.

Lemma half_even_pick_mono f r r' :
  r <= r' -> (half_even_pick f r <= half_even_pick f r')%Z.
Proof.
  intros Hr. unfold half_even_pick.
  destruct (Qlt_le_dec r 0.5), (Qlt_le_dec r' 0.5);
    destruct (Qlt_le_dec 0.5 r), (Qlt_le_dec 0.5 r');
    destruct (Z.even f); try lia; lra.
Qed.

Lemma round3_mono x y : x <= y -> round3 x <= round3 y.
Proof.
  intros Hxy. rewrite !round3_pick.
  set (fx := Qfloor (x * 1000)). set (fy := Qfloor (y * 1000)).
  assert (Hf : (fx <= fy)%Z) by (apply Qfloor_resp_le; lra).
  assert (Hpick : (half_even_pick fx (x * 1000 - inject_Z fx)
                   <= half_even_pick fy (y * 1000 - inject_Z fy))%Z).
  { destruct (Z.eq_dec fx fy) as [Heq|Hne].
    - rewrite <- Heq. apply half_even_pick_mono. lra.
    - pose proof (half_even_pick_bounds fx (x * 1000 - inject_Z fx)).
      pose proof (half_even_pick_bounds fy (y * 1000 - inject_Z fy)). lia. }
  apply Qmult_le_compat_r; [|apply Qinv_le_0_compat; lra].
  now rewrite <- Zle_Qle.
Qed.

Lemma round3_unit x : 0 <= x <= 1 -> 0 <= round3 x <= 1.
Proof.
  intros [H0 H1]. split.
  - apply (Qle_trans _ (round3 0)); [vm_compute; discriminate|].
    now apply round3_mono.
  - apply (Qle_trans _ (round3 1)); [now apply round3_mono|].
    vm_compute. discriminate.
Qed.


Lemma sort_desc_in_scored query documents p :
  p ∈ sort_desc (map (fun doc => (doc, final_score query doc)) documents) ->
  snd p = final_score query (fst p) /\ fst p ∈ documents.
Proof.
  rewrite sort_desc_perm. intros Hin.
  apply list_elem_of_fmap in Hin as (doc & -> & Hdoc). simpl. auto.
Qed.

(** The pairs [simple_rerank] returns, for any [top_k]: a prefix of the
    sorted candidates. *)
Lemma simple_rerank_is_prefix query documents top_k :
  exists n, simple_rerank query documents top_k
            = take n (sort_desc (map (fun doc => (doc, final_score query doc))
                                   documents)).
Proof. unfold simple_rerank, slice_to. destruct (_ <? 0)%Z; eauto. Qed.

Context {RT : Runtime}.

Ltac invert_try Hrun :=
  repeat (apply bind_ok in Hrun as (? & ? & ? & Hrun));
  apply ret_ok in Hrun as [-> ->].


Lemma try_block_grounded b question start_time w0 w1 w2 docs r c :
  candidates b question w0 = (Ok docs, w1) ->
  try_block b question start_time w0 = (Ok r, w2) ->
  c ∈ citations r ->
  exists doc, doc ∈ docs
              /\ cit_content c = preview (page_content doc)
              /\ cit_source c
                 = default (VStr "unknown") (metadata doc !! "source_file"%string).
Proof.
  intros Hdocs Hrun Hc. apply list_elem_of_lookup in Hc as [i Hc].
  destruct b; simpl in *;
    unfold ask_basic_try, ask_hyde_try, ask_rerank_try, ask_enhanced_try in Hrun;
    apply bind_ok in Hrun as (docs' & w1' & Hdocs' & Hrun);
    rewrite Hdocs in Hdocs'; injection Hdocs' as <- <-;
    invert_try Hrun; simpl in Hc.
  1, 2: apply lookup_citation_plain in Hc as (doc & Hdoc & ->);
    exists doc; split; [eapply list_elem_of_lookup_2; eauto|];
    split; reflexivity.
  all: apply lookup_citation_scored in Hc as (ds & Hds & ->);
    match type of Hds with
    | simple_rerank ?q ?ds0 ?k !! _ = _ =>
        destruct (simple_rerank_is_prefix q ds0 k) as [n Hn];
        rewrite Hn in Hds
    end;
    apply lookup_take_Some in Hds as [Hds _];
    apply list_elem_of_lookup_2, sort_desc_in_scored in Hds as [_ Hds];
    exists (fst ds); split; [exact Hds|]; split; reflexivity.
Qed.

(** X14. Every citation of an answer is drawn from the chunks the method
    retrieved: its content is the preview of one of the candidates and its
    source is that candidate's file (or [unknown]). *)
Theorem citations_come_from_candidates (b : branch) (question : string)
    (w w1 : World) (docs : list Document) (c : Citation) :
  candidates b question (snd (time_time w)) = (Ok docs, w1) ->
  c ∈ citations (fst (run b question w)) ->
  exists doc, doc ∈ docs
              /\ cit_content c = preview (page_content doc)
              /\ cit_source c
                 = default (VStr "unknown") (metadata doc !! "source_file"%string).
Proof.
  intros Hdocs.
  destruct (run_cases b question w) as [(r & w2 & Htry & ->)|(e & w2 & Htry & ->)].
  - simpl. intros Hc. eapply try_block_grounded; eauto.
  - unfold error_result. destruct (time_time w2) as [now w3]. simpl.
    intros Hc. now apply elem_of_nil in Hc.
Qed.

End RoundedScores.

(** ** The simple chain *)

Section SimpleChainFacts.
Import Text VectorStore Chain Reference SimpleChain.
Context {RT : Runtime}.
Local Open Scope Q_scope.

Ltac invert_try Hrun :=
  repeat (apply bind_ok in Hrun as (? & ? & ? & Hrun));
  apply ret_ok in Hrun as [-> ->].

Lemma simple_doc_score_ok source_docs :
  TOP_K settings <> 0%Z ->
  simple_doc_score source_docs
  = Ok (py_min (float_of_int (len source_docs) / float_of_int (TOP_K settings)) 1
        * 0.4).
Proof.
  intros Hk. unfold simple_doc_score.
  now rewrite truediv_ok by now apply float_of_int_nonzero.
Qed.

Lemma doc_score_value source_docs :
  TOP_K settings <> 0%Z ->
  doc_score source_docs
  = Ok (py_min (float_of_int (len source_docs) / float_of_int (TOP_K settings)) 1
        * 0.3).
Proof.
  intros Hk. unfold doc_score.
  now rewrite truediv_ok by now apply float_of_int_nonzero.
Qed.

Lemma simple_confidence_computed_range source_docs question answer c :
  calculate_confidence source_docs question answer = Ok c ->
  0.1 <= c <= 0.95.
Proof.
  unfold calculate_confidence.
  destruct source_docs as [|doc rest].
  - intros [= <-]. lra.
  - destruct (simple_doc_score (doc :: rest)) as [d|e]; [|discriminate].
    destruct (relevance_score (doc :: rest) question) as [r|e]; [|discriminate].
    destruct (keyword_score question answer) as [k|e]; [|discriminate].
    cbn [rbind]. intros [= <-]. apply clamp_range.
Qed.

Lemma clamp_mono a b : a <= b -> clamp a <= clamp b.
Proof.
  intros Hab. unfold clamp, py_min, py_max.
  destruct (Qlt_le_dec a 0.1), (Qlt_le_dec b 0.1);
    repeat match goal with
           | |- context [Qlt_le_dec ?x ?y] => destruct (Qlt_le_dec x y)
           end; lra.
Qed.

(** X16. With [TOP_K >= 1], on the same documents, question and answer, the
    confidence of the simple chain is never below the confidence the
    enhanced chain gives under the tag [basic]: the two sums differ only in
    the weight of the document count, 0.4 in the simple chain and 0.3 in
    the enhanced one, and the enhanced chain adds a bonus of 0.0. *)
Theorem simple_confidence_at_least_basic (source_docs : list Document)
    (question answer : string) :
  (1 <= TOP_K settings)%Z ->
  exists c_basic c_simple,
    calculate_enhanced_confidence source_docs question answer "basic"
    = Ok c_basic
    /\ calculate_confidence source_docs question answer = Ok c_simple
    /\ c_basic <= c_simple.
Proof.
  intros Hk.
  destruct source_docs as [|doc rest].
  { exists 0.1, 0.1. repeat split; try reflexivity; lra. }
  set (docs := doc :: rest).
  assert (Hne : docs <> []) by discriminate.
  assert (Hk' : TOP_K settings <> 0%Z) by lia.
  destruct (relevance_score_ok docs question) as [r Hr].
  destruct (keyword_score_ok question answer) as [k Hkw].
  set (ratio := py_min (float_of_int (len docs) / float_of_int (TOP_K settings)) 1).
  assert (Hratio : 0 <= ratio <= 1).
  { unfold ratio. split; [|apply py_min_le_r].
    apply py_min_glb; [|lra]. unfold float_of_int, len.
    apply Qle_shift_div_l.
    - change 0 with (inject_Z 0). rewrite <- Zlt_Qlt. lia.
    - rewrite Qmult_0_l. apply count_nonneg. }
  exists (clamp (ratio * 0.3 + r + answer_length_score answer + k
                 + method_bonus "basic")),
         (clamp (ratio * 0.4 + r + answer_length_score answer + k)).
  split; [apply confidence_sum; auto; now apply doc_score_value|].
  split.
  { unfold calculate_confidence. fold docs.
    change (match docs with [] => Ok 0.1 | _ :: _ => ?x end) with x.
    rewrite (simple_doc_score_ok docs Hk'), Hr, Hkw. reflexivity. }
  apply clamp_mono; unfold method_bonus; simpl; lra.
Qed.

(** X17. [SimpleRAGChain.ask] always returns a dictionary: its confidence is
    0.0 (the error dictionary, with no citation and a source count of 0) or
    lies between 0.1 and 0.95, and the number of citations is the source
    count. *)
Theorem simple_ask_shape (question : string) (w : World) :
  let r := fst (ask question w) in
  len (sr_citations r) = sr_source_count r
  /\ ((sr_confidence r = 0.0 /\ sr_citations r = [])
      \/ 0.1 <= sr_confidence r <= 0.95).
Proof.
  intros r. subst r. unfold ask, try_except.
  destruct (time_time w) as [start_time w0].
  destruct (ask_try question start_time w0) as [[r|e] w1] eqn:Hrun.
  - simpl. unfold ask_try in Hrun. invert_try Hrun. simpl.
    split; [unfold len; now rewrite length_imap|]. right.
    match goal with
    | Hc : lift _ _ = _ |- _ =>
        apply lift_ok in Hc as [Hc _];
        now apply simple_confidence_computed_range in Hc
    end.
  - unfold ask_error. destruct (time_time w1) as [now w2]. simpl.
    split; [reflexivity|]. left. split; reflexivity.
Qed.
End SimpleChainFacts.

(** ** Rating an answer *)

Section Ratings.
Import Text TextMore Chain Evaluator.
Context {RT : Runtime}.
Local Open Scope Q_scope.

Lemma rating_of_reply_range score_text : 0 <= rating_of_reply score_text <= 1.
Proof.
  unfold rating_of_reply. destruct (search_rating score_text) as [m|]; [|lra].
  set (score := float_of_decimal m).
  pose proof (py_max_ge_r score 0.0) as Hlow.
  pose proof (py_min_le_r (py_max score 0.0) 1.0) as Hhigh.
  split; [|lra]. apply py_min_glb; lra.
Qed.

Lemma rate_range prompt w : 0 <= fst (rate prompt w) <= 1.
Proof.
  unfold rate.
  destruct (chat_completions_create _ _ _ _ w) as [[response|e] w']; simpl.
  - apply rating_of_reply_range.
  - lra.
Qed.

(** X18. Each of the three ratings (faithfulness, relevance, completeness)
    is a number between 0 and 1, whatever the model replies and also when
    the call raises. *)
Theorem ratings_in_unit_interval (question answer context : string) (w : World) :
  0 <= fst (evaluate_faithfulness question answer context w) <= 1
  /\ 0 <= fst (evaluate_relevance question answer w) <= 1
  /\ 0 <= fst (evaluate_completeness question answer w) <= 1.
Proof.
  unfold evaluate_faithfulness, evaluate_relevance, evaluate_completeness.
  repeat split; apply rate_range.
Qed.

(** X19. The four metrics [evaluate_single_qa] reports, the overall score
    included, lie between 0 and 1, and the context it reports is at most 203
    characters long. *)
Theorem evaluation_metrics_in_unit_interval (question answer context : string)
    (w : World) :
  let m := metrics (fst (evaluate_single_qa question answer context w)) in
  0 <= faithfulness m <= 1
  /\ 0 <= relevance m <= 1
  /\ 0 <= completeness m <= 1
  /\ 0 <= overall_score m <= 1
  /\ (slen (ev_context (fst (evaluate_single_qa question answer context w)))
      <= 203)%Z.
Proof.
  unfold evaluate_single_qa.
  destruct (time_time w) as [start_time w0].
  pose proof (rate_range
                (faithfulness_prompt (String.substring 0 1000 context)
                   question answer) w0) as Hf.
  unfold evaluate_faithfulness.
  destruct (rate _ w0) as [f w1]. simpl in Hf.
  pose proof (rate_range (relevance_prompt question answer) w1) as Hr.
  unfold evaluate_relevance.
  destruct (rate _ w1) as [r w2]. simpl in Hr.
  pose proof (rate_range (completeness_prompt question answer) w2) as Hc.
  unfold evaluate_completeness.
  destruct (rate _ w2) as [c w3]. simpl in Hc.
  destruct (time_time w3) as [now w4]. simpl.
  repeat split; try (apply round3_unit; lra); try apply preview_length.
Qed.

Lemma all_chars_lstrip keep s :
  all_chars keep s = true -> all_chars keep (lstrip s) = true.
Proof.
  induction s as [|c s IH]; simpl; [auto|].
  intros H. apply andb_true_iff in H as [Hc Hs].
  destruct (is_space c); [now apply IH|]. simpl. now rewrite Hc, Hs.
Qed.

Lemma all_chars_rstrip keep s :
  all_chars keep s = true -> all_chars keep (rstrip s) = true.
Proof.
  induction s as [|c s IH]; simpl; [auto|].
  intros H. apply andb_true_iff in H as [Hc Hs]. specialize (IH Hs).
  destruct (rstrip s) as [|c' t].
  - destruct (is_space c); simpl; [reflexivity|]. now rewrite Hc.
  - simpl in *. now rewrite Hc, IH.
Qed.

Lemma search_rating_none s :
  all_chars (fun c => negb (is_zero_or_one c)) s = true ->
  search_rating s = None.
Proof.
  induction s as [|c s IH]; simpl; [reflexivity|].
  intros H. apply andb_true_iff in H as [Hc Hs].
  apply negb_true_iff in Hc. rewrite Hc. now apply IH.
Qed.

(** X20. A reply that holds neither a 0 nor a 1 is rated 0.5: the rating is
    read from the first 0 or 1 of the reply on, so a reply such as 8 counts
    as no rating at all. *)
Theorem rating_needs_zero_or_one (question answer : string) (w w' : World)
    (response : ChatResponse) :
  chat_completions_create (MODEL_NAME settings)
    (relevance_prompt question answer) 0.1 10%Z w = (Ok response, w') ->
  all_chars (fun c => negb (is_zero_or_one c)) (message_content response)
  = true ->
  fst (evaluate_relevance question answer w) = 0.5.
Proof.
  intros Hchat Hnone. unfold evaluate_relevance, rate. rewrite Hchat. simpl.
  unfold rating_of_reply, strip.
  now rewrite search_rating_none by now apply all_chars_lstrip, all_chars_rstrip.
Qed.
End Ratings.

(** ** Response times *)

Section ResponseTime.
Import Text VectorStore HyDE Reranker Chain App Reference ReferenceMore.
Context {RT : Runtime}.
Local Open Scope Q_scope.

Ltac invert_try Hrun :=
  repeat (apply bind_ok in Hrun as (? & ? & ? & Hrun));
  apply ret_ok in Hrun as [-> ->].

Lemma keeps_time_bind {A B} (m : M A) (f : A -> M B) :
  keeps_time m -> (forall a, keeps_time (f a)) -> keeps_time (bind m f).
Proof.
  intros Hm Hf w r w'. unfold bind.
  destruct (m w) as [[a|e] w1] eqn:Hrun.
  - intros Hfa. apply Hm in Hrun. apply Hf in Hfa. lra.
  - intros [= <- <-]. now apply Hm in Hrun.
Qed.

Lemma keeps_time_ret {A} (a : A) : keeps_time (ret a).
Proof. intros w r w' [= <- <-]. lra. Qed.

Section Monotone.
Hypothesis Hclock : clock_never_goes_back.

Lemma keeps_time_search query k : keeps_time (similarity_search query k).
Proof.
  intros w r w' Hrun. unfold similarity_search in Hrun.
  destruct Hclock as (_ & Hstore & _).
  specialize (Hstore query (or_default k (TOP_K settings)) w).
  now rewrite Hrun in Hstore.
Qed.

Lemma keeps_time_chat model prompt temperature max_tokens :
  keeps_time (chat_completions_create model prompt temperature max_tokens).
Proof.
  intros w r w' Hrun. destruct Hclock as (_ & _ & Hchat).
  specialize (Hchat model prompt temperature max_tokens w).
  now rewrite Hrun in Hchat.
Qed.

Lemma keeps_time_hypothetical question :
  keeps_time (generate_hypothetical_answer question).
Proof.
  intros w r w'. unfold generate_hypothetical_answer.
  destruct (chat_completions_create _ _ _ _ w) as [[response|e] w1] eqn:Hrun;
    intros [= <- <-]; now apply keeps_time_chat in Hrun.
Qed.

Lemma keeps_time_hyde question k : keeps_time (hyde_retrieve question k).
Proof.
  unfold hyde_retrieve.
  apply keeps_time_bind; [apply keeps_time_hypothetical|]. intros hyp.
  apply keeps_time_bind; [apply keeps_time_search|]. intros hs.
  apply keeps_time_bind; [apply keeps_time_search|]. intros qs.
  apply keeps_time_ret.
Qed.

Lemma keeps_time_candidates b question : keeps_time (candidates b question).
Proof.
  destruct b; simpl; auto using keeps_time_search, keeps_time_hyde.
Qed.

Lemma keeps_time_now : keeps_time (total time_time).
Proof.
  intros w r w'. unfold total. destruct (time_time w) as [t w1] eqn:Hrun.
  intros [= <- <-]. destruct Hclock as (Hread & _).
  specialize (Hread w). now rewrite Hrun in Hread.
Qed.

Lemma keeps_time_lift {A} (r : result A) : keeps_time (lift r).
Proof. intros w r' w' [= <- <-]. lra. Qed.

Lemma keeps_time_try_block b question start_time :
  keeps_time (try_block b question start_time).
Proof.
  destruct b; simpl;
    unfold ask_basic_try, ask_hyde_try, ask_rerank_try, ask_enhanced_try;
    (apply keeps_time_bind;
       [first [apply keeps_time_search | apply keeps_time_hyde]|]; intros docs;
     apply keeps_time_bind; [apply keeps_time_chat|]; intros response;
     apply keeps_time_bind; [apply keeps_time_now|]; intros now;
     apply keeps_time_bind; [apply keeps_time_lift|]; intros c;
     apply keeps_time_ret).
Qed.

Lemma try_block_response_time b question start_time w0 r w1 :
  try_block b question start_time w0 = (Ok r, w1) ->
  exists w', clock w0 <= clock w' /\ response_time r = clock w' - start_time.
Proof.
  intros Hrun. destruct b; simpl in Hrun;
    unfold ask_basic_try, ask_hyde_try, ask_rerank_try, ask_enhanced_try in Hrun;
    apply bind_ok in Hrun as (docs & wa & Hdocs & Hrun);
    apply bind_ok in Hrun as (response & wb & Hchat & Hrun);
    apply bind_ok in Hrun as (now & wc & Hnow & Hrun);
    apply bind_ok in Hrun as (c & wd & Hc & Hrun);
    apply ret_ok in Hrun as [-> ->];
    apply keeps_time_chat in Hchat;
    first [apply keeps_time_search in Hdocs | apply keeps_time_hyde in Hdocs];
    apply total_ok in Hnow; exists wb; simpl;
    (split; [lra|]); unfold clock; now rewrite Hnow.
Qed.

(** X21. If the clock never goes back, the response time a method reports
    is never negative, on the error path as well. *)
Theorem response_time_nonnegative (b : branch) (question : string) (w : World) :
  0 <= response_time (fst (run b question w)).
Proof.
  destruct Hclock as (Hread & _).
  pose proof (Hread w) as Hstart.
  destruct (run_cases b question w) as [(r & w1 & Htry & ->)|(e & w1 & Htry & ->)].
  - simpl. apply try_block_response_time in Htry as (w' & Hadv & ->).
    fold (clock w). lra.
  - apply keeps_time_try_block in Htry.
    unfold error_result. destruct (time_time w1) as [now w2] eqn:Hnow. simpl.
    fold (clock w). assert (now = clock w1) as -> by (unfold clock; now rewrite Hnow).
    lra.
Qed.
End Monotone.
End ResponseTime.

(** ** The properties at work *)

Lemma semantic_score_of_number_witness :
  let R := DemoMore.runtime_replying " 8 " Demo.store3 5 in
  (fst (RerankerLLM.calculate_semantic_score (RT := R) "What is RAG?"
          "RAG combines retrieval and generation." 0%nat)
   == Qmin (inject_Z 8 / 10) 1)%Q.
Proof.
  intros R.
  exact (proj1 (semantic_score_of_number (RT := R) "What is RAG?"
                  "RAG combines retrieval and generation." 0%nat 0%nat
                  (mkChatResponse " 8 " (Some 7)) "8" eq_refl eq_refl)).
Defined.


Lemma demo_embed_api_in_full bad :
  ReferenceMore.batch_answers_in_full
    (RT := Demo.runtime Demo.store3 true true 5) (DemoMore.embed_api bad).
Proof.
  intros model batch w data w'. simpl.
  destruct (bool_decide (bad ∈ batch)); [discriminate|].
  intros [= <- _]. apply length_map.
Qed.

Lemma embed_documents_one_vector_per_text_witness :
  let R := Demo.runtime Demo.store3 true true 5 in
  length (fst (Embeddings.embed_documents (RT := R) (DemoMore.embed_api "b")
                 ["a"; "b"; "c"]%string 0%nat))
  = 3%nat.
Proof.
  intros R.
  exact (embed_documents_one_vector_per_text (RT := R) (DemoMore.embed_api "b")
           ["a"; "b"; "c"]%string 0%nat (demo_embed_api_in_full "b")).
Defined.

Lemma demo_embed_down_outage :
  ReferenceMore.embedding_outage
    (RT := Demo.runtime Demo.store3 true true 5) DemoMore.embed_down.
Proof. intros model input w. do 2 eexists. reflexivity. Qed.

Lemma embed_documents_outage_gives_zero_vectors_witness :
  let R := Demo.runtime Demo.store3 true true 5 in
  fst (Embeddings.embed_documents (RT := R) DemoMore.embed_down
         ["a"; "b"; "c"]%string 0%nat)
  = replicate 3 Embeddings.zero_vector.
Proof.
  intros R.
  exact (proj1 (embed_documents_outage_gives_zero_vectors (RT := R)
                  DemoMore.embed_down ["a"; "b"; "c"]%string 0%nat
                  demo_embed_down_outage)).
Defined.

Lemma citations_well_formed_witness :
  let R := Demo.runtime Demo.store3 true true 5 in
  exists c,
    citations (fst (App.run (RT := R) App.Enhanced "What is RAG?" 0%nat)) !! 0%nat
    = Some c
    /\ cit_chunk_id c = 0
    /\ Text.slen (cit_content c) <= 203
    /\ cit_retrieval_method c = "hyde+rerank"%string.
Proof.
  intros R.
  assert (Hc : exists c,
             citations (fst (App.run (RT := R) App.Enhanced "What is RAG?" 0%nat))
               !! 0%nat = Some c)
    by (eexists; vm_compute; reflexivity).
  destruct Hc as [c Hc]. exists c. split; [exact Hc|].
  destruct (citations_well_formed (RT := R) App.Enhanced "What is RAG?" 0%nat
              0%nat c Hc) as (Hid & Hlen & Htag & _).
  split; [exact Hid|]. split; [exact Hlen|]. exact Htag.
Defined.

Lemma empty_retrieval_gives_floor_witness :
  let R := Demo.runtime [] true true 5 in
  let r := fst (App.run (RT := R) App.Rerank "What is RAG?" 0%nat) in
  confidence r = 0.1%Q /\ citations r = [] /\ source_count r = 0.
Proof.
  intros R r.
  destruct (empty_retrieval_gives_floor (RT := R) App.Rerank "What is RAG?"
              0%nat 1%nat 1%nat
              (mkChatResponse "RAG combines retrieval and generation" (Some 42))
              eq_refl eq_refl) as (_ & Hc & Hcit & Hn & _).
  split; [exact Hc|]. split; [exact Hcit|exact Hn].
Defined.

Lemma source_count_by_method_witness :
  let R := Demo.runtime Demo.store3 true true 2 in
  exists r w2,
    Reference.try_block (RT := R) App.Rerank "What is RAG?" 0%Q 1%nat = (Ok r, w2)
    /\ source_count r = Z.min 2 (len Demo.store3).
Proof.
  intros R.
  assert (Hrun : exists r w2,
             Reference.try_block (RT := R) App.Rerank "What is RAG?" 0%Q 1%nat
             = (Ok r, w2))
    by (do 2 eexists; vm_compute; reflexivity).
  destruct Hrun as (r & w2 & Hrun). exists r, w2. split; [exact Hrun|].
  exact (source_count_by_method (RT := R) App.Rerank "What is RAG?" 0%Q
           1%nat 1%nat w2 Demo.store3 r ltac:(simpl; lia) eq_refl Hrun).
Defined.

Lemma hyde_retrieve_raises_only_with_store_witness :
  let down := Demo.runtime Demo.store3 false true 5 in
  let mute := Demo.runtime Demo.store3 true false 5 in
  (exists hypothetical_answer w1,
      ((exists response,
           chat_completions_create (Runtime := down) "gpt-3.5-turbo"
             (HyDE.hyde_prompt "What is RAG?") 0.3%Q 300%Z 0%nat
           = (Ok response, w1)
           /\ hypothetical_answer = message_content response)
       \/ (exists e0,
             chat_completions_create (Runtime := down) "gpt-3.5-turbo"
               (HyDE.hyde_prompt "What is RAG?") 0.3%Q 300%Z 0%nat
             = (Raise e0, w1)
             /\ hypothetical_answer = "What is RAG?"%string))
      /\ (chroma_similarity_search (Runtime := down) hypothetical_answer
            (2 * 2)%Z w1
          = (Raise (RuntimeError "store unreachable"), 0%nat)
          \/ exists hyde_results w2,
               chroma_similarity_search (Runtime := down) hypothetical_answer
                 (2 * 2)%Z w1
               = (Ok hyde_results, w2)
               /\ chroma_similarity_search (Runtime := down) "What is RAG?"
                    2%Z w2
                  = (Raise (RuntimeError "store unreachable"), 0%nat)))
  /\ HyDE.hyde_retrieve (RT := mute) "What is RAG?" (Some 2%Z) 0%nat
     = (Ok [Demo.rag; Demo.hyde], 0%nat).
Proof.
  intros down mute. split.
  - exact (proj1 (hyde_retrieve_raises_only_with_store (RT := down)
                    "What is RAG?" (Some 2%Z) 0%nat)
             (RuntimeError "store unreachable") 0%nat eq_refl).
  - exact (proj2 (hyde_retrieve_raises_only_with_store (RT := mute)
                    "What is RAG?" (Some 2%Z) 0%nat)
             (RuntimeError "generation unreachable") 0%nat
             [Demo.rag; Demo.hyde; Demo.rag; Demo.rank] 0%nat
             [Demo.rag; Demo.hyde] 0%nat eq_refl eq_refl eq_refl).
Defined.


Lemma simple_confidence_at_least_basic_witness :
  let R := Demo.runtime Demo.store3 true true 5 in
  exists c_basic c_simple,
    Chain.calculate_enhanced_confidence (RT := R) Demo.store3 "What is RAG?"
      "RAG combines retrieval and generation" "basic" = Ok c_basic
    /\ SimpleChain.calculate_confidence (RT := R) Demo.store3 "What is RAG?"
         "RAG combines retrieval and generation" = Ok c_simple
    /\ (c_basic <= c_simple)%Q.
Proof.
  intros R.
  exact (simple_confidence_at_least_basic (RT := R) Demo.store3 "What is RAG?"
           "RAG combines retrieval and generation" ltac:(simpl; lia)).
Defined.

Lemma rating_needs_zero_or_one_witness :
  let R := DemoMore.runtime_replying "8" Demo.store3 5 in
  fst (Evaluator.evaluate_relevance (RT := R) "What is RAG?"
         "RAG combines retrieval and generation" 0%nat) = 0.5%Q.
Proof.
  intros R.
  exact (rating_needs_zero_or_one (RT := R) "What is RAG?"
           "RAG combines retrieval and generation" 0%nat 0%nat
           (mkChatResponse "8" (Some 7)) eq_refl eq_refl).
Defined.

Lemma demo_clock_never_goes_back store store_up llm_up top_k :
  ReferenceMore.clock_never_goes_back
    (RT := Demo.runtime store store_up llm_up top_k).
Proof.
  split; [|split].
  - intros w. unfold ReferenceMore.clock. simpl. rewrite <- Zle_Qle. lia.
  - intros query k w. unfold ReferenceMore.clock. simpl.
    destruct store_up; simpl; apply Qle_refl.
  - intros model prompt temperature max_tokens w.
    unfold ReferenceMore.clock. simpl. destruct llm_up; simpl; apply Qle_refl.
Qed.

Lemma response_time_nonnegative_witness :
  let R := Demo.runtime Demo.store3 true false 5 in
  (0 <= response_time (fst (App.run (RT := R) App.Hyde "What is RAG?" 0%nat)))%Q.
Proof.
  intros R.
  exact (response_time_nonnegative (RT := R)
           (demo_clock_never_goes_back _ _ _ _) App.Hyde "What is RAG?" 0%nat).
Defined.

Lemma citations_come_from_candidates_witness :
  let R := Demo.runtime Demo.store3 true true 5 in
  exists c doc,
    c ∈ citations (fst (App.run (RT := R) App.Rerank "What is RAG?" 0%nat))
    /\ doc ∈ Demo.store3
    /\ cit_content c = Chain.preview (page_content doc).
Proof.
  intros R.
  assert (Hc : exists c,
             citations (fst (App.run (RT := R) App.Rerank "What is RAG?" 0%nat))
               !! 0%nat = Some c)
    by (eexists; vm_compute; reflexivity).
  destruct Hc as [c Hc]. apply list_elem_of_lookup_2 in Hc.
  destruct (citations_come_from_candidates (RT := R) App.Rerank "What is RAG?"
              0%nat 1%nat Demo.store3 c eq_refl Hc) as (doc & Hdoc & Hcontent & _).
  exists c, doc. split; [exact Hc|]. split; [exact Hdoc|exact Hcontent].
Defined.
